(** * TaskList and RecentUsers: shared-state synchronisation over localStorage

    A shallow embedding of the two React components of
    [src/components/tasks/TaskList.jsx] (the task panel) and
    [src/components/admin/RecentUsers.jsx] (the activity-log panel), with the
    properties of their load, filter, toggle, edit, delete and storage-event
    paths.

    Conventions of the embedding.
    - A JavaScript string is a [string].  [JsString.toLowerCase] and
      [JsString.trim] are the builtins on ASCII text: they fold the letters
      A to Z and strip TAB, LF, VT, FF, CR and SPACE.  What is stated of
      the filter engine for every text is stated over the interface
      [StringBuiltins], of which they are one instance.
    - An instant is an integer number of milliseconds since the epoch; the
      ISO-8601 text that [toISOString] produces and that [new Date(text)]
      reads back is represented by the instant itself.
    - [localStorage] is a finite map from keys to strings.
    - The clock does not advance during one run of a handler: every
      [new Date()] and [Date.now()] of the run reads the same instant.
    - A component is its tuple of [useState] cells.  An event handler is a
      closure of one render: it reads the cells of that render and queues
      writes, the last write to a cell winning.  The closures that the
      mount effect creates belong to the first render for as long as the
      component is mounted.
    - [window.dispatchEvent] runs the listeners synchronously, the one of
      the dispatching component included. *)

From Stdlib Require Import ZArith List Bool Ascii String Sorted Permutation.
From Stdlib Require Import DecimalString DecimalZ.
From stdpp Require Import base option gmap strings list fin_maps.
Import ListNotations.

Local Open Scope string_scope.
Local Open Scope Z_scope.
#[local] Arguments String.append !s1 s2 : simpl nomatch.

(** ** JavaScript strings *)

Module JsString.

Definition is_upper (c : ascii) : bool :=
  let n := nat_of_ascii c in (Nat.leb 65 n && Nat.leb n 90)%bool.

Definition lower_char (c : ascii) : ascii :=
  if is_upper c then ascii_of_nat (nat_of_ascii c + 32) else c.

(** [String.prototype.toLowerCase]. *)
Fixpoint toLowerCase (s : string) : string :=
  match s with
  | EmptyString => EmptyString
  | String c r => String (lower_char c) (toLowerCase r)
  end.

(** White space and line terminators, as far as ASCII has them:
    TAB, LF, VT, FF, CR and SPACE. *)
Definition is_space (c : ascii) : bool :=
  let n := nat_of_ascii c in
  (Nat.eqb n 32 || (Nat.leb 9 n && Nat.leb n 13))%bool.

Fixpoint trimStart (s : string) : string :=
  match s with
  | EmptyString => EmptyString
  | String c r => if is_space c then trimStart r else s
  end.

Fixpoint trimEnd (s : string) : string :=
  match s with
  | EmptyString => EmptyString
  | String c r =>
      match trimEnd r with
      | EmptyString => if is_space c then EmptyString else String c EmptyString
      | r' => String c r'
      end
  end.

(** [String.prototype.trim]. *)
Definition trim (s : string) : string := trimEnd (trimStart s).

(** [s.startsWith(p)] *)
Fixpoint startsWith (s p : string) {struct p} : bool :=
  match p with
  | EmptyString => true
  | String a p' =>
      match s with
      | String b s' => (Ascii.eqb a b && startsWith s' p')%bool
      | EmptyString => false
      end
  end.

(** [s.includes(t)]: [t] occurs in [s] as a contiguous substring. *)
Fixpoint includes (s t : string) : bool :=
  (startsWith s t ||
   match s with
   | EmptyString => false
   | String _ r => includes r t
   end)%bool.

(** Truthiness of a string: every string but the empty one. *)
Definition truthy (s : string) : bool :=
  match s with EmptyString => false | String _ _ => true end.

End JsString.
Import JsString.

(** ** Records *)

Definition instant := Z.

Record Task := mkTask {
  _id : string;
  title : string;
  description : string;
  status : string;
  priority : option string;
  dueDate : option instant;
  createdAt : option instant;
  updatedAt : option instant
}.

Record FilterSpec := mkFilters {
  f_status : string;
  f_search : string
}.

(** ** The filter engine *)

(** The list [result] that [applyFilters] hands to [setFilteredTasks]. *)
Definition applyFilters_result (taskList : list Task) (filterSettings : FilterSpec)
  : list Task :=
  let result := taskList in
  let result :=
    if negb (String.eqb (f_status filterSettings) "all")
    then List.filter (fun task => String.eqb (status task) (f_status filterSettings)) result
    else result in
  let result :=
    if truthy (trim (f_search filterSettings))
    then
      let searchTerm := trim (toLowerCase (f_search filterSettings)) in
      List.filter (fun task =>
                     (includes (toLowerCase (title task)) searchTerm
                      || includes (toLowerCase (description task)) searchTerm)%bool)
                  result
    else result in
  result.

(** *** The engine over the builtins of the platform

    [String.prototype.toLowerCase] and [String.prototype.trim] are
    builtins: the first folds every cased letter, may change the length
    of the text and looks at the neighbours of a letter (a capital sigma
    becomes the final sigma at the end of a word); the second strips every
    Unicode white space.  [applyFilters_with] is [applyFilters] over any
    such pair; [applyFilters_result] is its instance at the ASCII pair. *)

Class StringBuiltins := {
  builtin_toLowerCase : string -> string;
  builtin_trim : string -> string
}.

Definition applyFilters_with (B : StringBuiltins)
           (taskList : list Task) (filterSettings : FilterSpec) : list Task :=
  let result := taskList in
  let result :=
    if negb (String.eqb (f_status filterSettings) "all")
    then List.filter (fun task => String.eqb (status task) (f_status filterSettings)) result
    else result in
  let result :=
    if truthy (builtin_trim (f_search filterSettings))
    then
      let searchTerm := builtin_trim (builtin_toLowerCase (f_search filterSettings)) in
      List.filter (fun task =>
                     (includes (builtin_toLowerCase (title task)) searchTerm
                      || includes (builtin_toLowerCase (description task)) searchTerm)%bool)
                  result
    else result in
  result.

Definition ascii_builtins : StringBuiltins :=
  {| builtin_toLowerCase := toLowerCase; builtin_trim := trim |}.

(** [toLowerCase] on UTF-8 text made of ASCII and Greek letters: the
    capitals U+0391 to U+03A9 (bytes CE 91 to CE A9) go to the small
    letters U+03B1 to U+03C9 (CE B1 to CE BF, CF 80 to CF 89), and a
    capital sigma (CE A3) goes to the final sigma (CF 82) when a cased
    letter stands before it and none after it, to the sigma (CF 83)
    otherwise.  Other bytes are kept. *)
Module Utf8Lower.

Definition between (lo hi n : nat) : bool := (Nat.leb lo n && Nat.leb n hi)%bool.

Definition ascii_letter (n : nat) : bool := (between 65 90 n || between 97 122 n)%bool.

(** The text starts with a cased letter. *)
Definition starts_cased (s : string) : bool :=
  match s with
  | EmptyString => false
  | String c r =>
      let n := nat_of_ascii c in
      if Nat.ltb n 128 then ascii_letter n
      else
        match r with
        | String d _ =>
            let m := nat_of_ascii d in
            ((Nat.eqb n 206 && (between 145 169 m || between 177 191 m))
             || (Nat.eqb n 207 && between 128 137 m))%bool
        | EmptyString => false
        end
  end.

Fixpoint lower (after_cased : bool) (s : string) : string :=
  match s with
  | EmptyString => EmptyString
  | String c r =>
      let n := nat_of_ascii c in
      if Nat.eqb n 206 then
        match r with
        | String d r' =>
            let m := nat_of_ascii d in
            if Nat.eqb m 163 then
              String "207"
                     (String (if (after_cased && negb (starts_cased r'))%bool
                              then "130" else "131")
                             (lower true r'))
            else if Nat.eqb m 162 then String c (String d (lower false r'))
            else if between 145 159 m
            then String "206" (String (ascii_of_nat (m + 32)) (lower true r'))
            else if between 160 169 m
            then String "207" (String (ascii_of_nat (m - 32)) (lower true r'))
            else String c (String d (lower (between 177 191 m) r'))
        | EmptyString => String c EmptyString
        end
      else if Nat.eqb n 207 then
        match r with
        | String d r' =>
            String c (String d (lower (between 128 137 (nat_of_ascii d)) r'))
        | EmptyString => String c EmptyString
        end
      else String (lower_char c) (lower (ascii_letter n) r)
  end.

Definition toLowerCase (s : string) : string := lower false s.

End Utf8Lower.

(** The builtins on text of ASCII and Greek letters with ASCII white
    space. *)
Definition greek_builtins : StringBuiltins :=
  {| builtin_toLowerCase := Utf8Lower.toLowerCase; builtin_trim := trim |}.

(** The texts [U+0391 U+03A3] (capital alpha, capital sigma), [U+03A3],
    [U+03B1 U+03C2] (alpha, final sigma) and [U+03C3] (sigma) in UTF-8. *)
Definition ALPHA_SIGMA : string :=
  String "206" (String "145" (String "206" (String "163" EmptyString))).
Definition SIGMA : string := String "206" (String "163" EmptyString).
Definition alpha_final_sigma : string :=
  String "206" (String "177" (String "207" (String "130" EmptyString))).
Definition sigma : string := String "207" (String "131" EmptyString).

Record UserLog := mkLog {
  log_id : string;
  userId : string;
  username : string;
  role : string;
  action : string;
  loginTime : instant;
  logoutTime : option instant;
  ipAddress : string;
  tokenName : string
}.

(** ** The browser: storage, clock, event log *)

Record StorageEvent := mkEvent {
  key : option string;
  newValue : option string
}.

Record World := mkWorld {
  localStorage : gmap string string;
  clock : instant;                       (* what [Date.now()] returns *)
  dispatched : list StorageEvent;        (* [window.dispatchEvent] calls, latest first *)
  alerts : list string;                  (* [alert] calls, latest first *)
  console : list string                  (* [console.error] calls, latest first *)
}.

(** ** Effects

    A computation runs against the browser and the pending cells [S] of one
    component; it completes normally or throws, and what it did before a
    throw stays done. *)

Inductive completion (A : Type) : Type :=
| Normal (a : A)
| Thrown (e : string).
Arguments Normal {A} a.
Arguments Thrown {A} e.

Definition Eff (S A : Type) : Type := World -> S -> completion A * World * S.

Definition ret {S A} (a : A) : Eff S A := fun w s => (Normal a, w, s).

Definition bind {S A B} (m : Eff S A) (k : A -> Eff S B) : Eff S B :=
  fun w s =>
    match m w s with
    | (Normal a, w', s') => k a w' s'
    | (Thrown e, w', s') => (Thrown e, w', s')
    end.

Definition throw {S A} (e : string) : Eff S A := fun w s => (Thrown e, w, s).

(** [try { body } catch (err) { handler }] *)
Definition try_catch {S A} (body : Eff S A) (handler : string -> Eff S A) : Eff S A :=
  fun w s =>
    match body w s with
    | (Normal a, w', s') => (Normal a, w', s')
    | (Thrown e, w', s') => handler e w' s'
    end.

(** [try { body } finally { final }] *)
Definition try_finally {S A} (body : Eff S A) (final : Eff S unit) : Eff S A :=
  fun w s =>
    match body w s with
    | (r, w', s') =>
        match final w' s' with
        | (Normal _, w'', s'') => (r, w'', s'')
        | (Thrown e, w'', s'') => (Thrown e, w'', s'')
        end
    end.

Declare Scope eff_scope.
Delimit Scope eff_scope with eff.
Notation "x <- m ;; k" := (bind m (fun x => k))
  (at level 100, m at next level, right associativity) : eff_scope.
Notation "m ;; k" := (bind m (fun _ => k))
  (at level 100, right associativity) : eff_scope.

Definition modify {S} (f : S -> S) : Eff S unit := fun w s => (Normal tt, w, f s).

Definition localStorage_getItem {S} (k : string) : Eff S (option string) :=
  fun w s => (Normal (localStorage w !! k), w, s).

Definition localStorage_setItem {S} (k v : string) : Eff S unit :=
  fun w s =>
    (Normal tt,
     mkWorld (<[k := v]> (localStorage w)) (clock w) (dispatched w) (alerts w) (console w),
     s).

Definition Date_now {S} : Eff S instant := fun w s => (Normal (clock w), w, s).

Definition window_alert {S} (msg : string) : Eff S unit :=
  fun w s =>
    (Normal tt,
     mkWorld (localStorage w) (clock w) (dispatched w) (msg :: alerts w) (console w),
     s).

Definition console_error {S} (msg : string) : Eff S unit :=
  fun w s =>
    (Normal tt,
     mkWorld (localStorage w) (clock w) (dispatched w) (alerts w) (msg :: console w),
     s).

(** The event is recorded; running the listeners is the caller's part. *)
Definition record_event {S} (e : StorageEvent) : Eff S unit :=
  fun w s =>
    (Normal tt,
     mkWorld (localStorage w) (clock w) (e :: dispatched w) (alerts w) (console w),
     s).

(** A builtin that returns or throws. *)
Definition lift_option {S A} (e : string) (o : option A) : Eff S A :=
  match o with
  | Some a => ret a
  | None => throw e
  end.

(** An event handler is created by a render and closes over the cells of
    that render; [fire h w st] runs the handler that the render of [st]
    created. *)
Definition fire {S A} (h : S -> Eff S A) (w : World) (st : S) : completion A * World * S :=
  h st w st.

Definition outcome_of {S A} (r : completion A * World * S) : completion A := fst (fst r).
Definition world_of {S A} (r : completion A * World * S) : World := snd (fst r).
Definition state_of {S A} (r : completion A * World * S) : S := snd r.

(** ** Array.prototype.sort

    [compareFn a b <= 0] keeps [a] before [b]; the sort is stable. *)

Fixpoint sort_insert {A} (compareFn : A -> A -> Z) (x : A) (l : list A) : list A :=
  match l with
  | [] => [x]
  | y :: l' =>
      if compareFn x y <=? 0 then x :: l else y :: sort_insert compareFn x l'
  end.

Definition Array_sort {A} (compareFn : A -> A -> Z) (l : list A) : list A :=
  List.fold_right (sort_insert compareFn) [] l.

(** ** JSON

    [JSON.parse] and [JSON.stringify] are builtins of the platform; each
    component uses them on one type of value (an array of task records, an
    array of log records), and the interface is instantiated at that type.
    [JSON_parse s = None] stands for a call that throws.  The cells that
    hold a collection are lists of records, and the embedding covers the
    texts of the persisted layout: those that are not JSON and those that
    are the JSON of an array of records.  A JSON text of another shape
    ([null], a number, an object, a string) is outside it: there the task
    panel runs [setTasks(value)] before [applyFilters] throws, or throws
    nothing when the value is a string, which is not what it does on a
    text that fails to parse.  [JSONSyntax] and [of_schema] name this
    scope in the statements that depend on it. *)

Class JSON (V : Type) := {
  JSON_parse : string -> option V;
  JSON_stringify : V -> string
}.

(** Whether [JSON.parse] returns on a text, whatever the shape of the
    value. *)
Class JSONSyntax := {
  JSON_valid : string -> bool
}.

(** A text of the persisted layout for values of type [V]: if it is JSON
    at all, it is the JSON of such a value. *)
Definition of_schema (V : Type) `{JSON V} `{JSONSyntax} (s : string) : Prop :=
  JSON_valid s = true -> exists v : V, JSON_parse s = Some v.

(** [v || d] on an optional string: [null], [undefined] and the empty string
    give [d]. *)
Definition or_default (v : option string) (d : string) : string :=
  match v with
  | Some s => if truthy s then s else d
  | None => d
  end.

(** [v === k] for a value [v] that is a string or [null]. *)
Definition strict_eq (v : option string) (k : string) : bool :=
  match v with
  | Some s => String.eqb s k
  | None => false
  end.

(** ** The task panel (TaskList.jsx) *)

Module TaskList.

Local Open Scope eff_scope.

Record EditForm := mkForm {
  form_title : string;
  form_description : string
}.

(** The [useState] cells of the component. *)
Record State := mkState {
  tasks : list Task;
  filteredTasks : list Task;
  loading : bool;
  error : option string;
  editingTask : option string;
  editForm : EditForm;
  filters : FilterSpec
}.

(** The cells of the first render. *)
Definition initialState : State :=
  mkState [] [] true None None (mkForm EmptyString EmptyString) (mkFilters "all" EmptyString).

Definition setTasks (v : list Task) : Eff State unit :=
  modify (fun s => mkState v (filteredTasks s) (loading s) (error s)
                           (editingTask s) (editForm s) (filters s)).
Definition setFilteredTasks (v : list Task) : Eff State unit :=
  modify (fun s => mkState (tasks s) v (loading s) (error s)
                           (editingTask s) (editForm s) (filters s)).
Definition setLoading (v : bool) : Eff State unit :=
  modify (fun s => mkState (tasks s) (filteredTasks s) v (error s)
                           (editingTask s) (editForm s) (filters s)).
Definition setError (v : option string) : Eff State unit :=
  modify (fun s => mkState (tasks s) (filteredTasks s) (loading s) v
                           (editingTask s) (editForm s) (filters s)).
Definition setEditingTask (v : option string) : Eff State unit :=
  modify (fun s => mkState (tasks s) (filteredTasks s) (loading s) (error s)
                           v (editForm s) (filters s)).
Definition setEditForm (f : EditForm -> EditForm) : Eff State unit :=
  modify (fun s => mkState (tasks s) (filteredTasks s) (loading s) (error s)
                           (editingTask s) (f (editForm s)) (filters s)).
Definition setFilters (v : FilterSpec) : Eff State unit :=
  modify (fun s => mkState (tasks s) (filteredTasks s) (loading s) (error s)
                           (editingTask s) (editForm s) v).

Definition applyFilters (taskList : list Task) (filterSettings : FilterSpec)
  : Eff State unit :=
  setFilteredTasks (applyFilters_result taskList filterSettings).

(** [{ ...filters, [filterType]: value }]; the panel calls it with
    ['status'] and ['search'] only, and a property of another name is not
    one the component reads. *)
Definition handleFilterChange (render : State) (filterType value : string)
  : Eff State unit :=
  let newFilters :=
    if String.eqb filterType "status" then mkFilters value (f_search (filters render))
    else if String.eqb filterType "search" then mkFilters (f_status (filters render)) value
    else filters render in
  setFilters newFilters ;;
  applyFilters (tasks render) newFilters.

(** The seed literal; each [new Date()] and [Date.now()] in it reads [now]. *)
Definition mockTasks (now : instant) : list Task :=
  [ mkTask "1" "Complete project documentation"
           "Write comprehensive documentation for the TaskFlow project"
           "incomplete" (Some "high")
           (Some now) (Some now) None;
    mkTask "2" "Fix navigation bug"
           "Address the issue with sidebar navigation on mobile devices"
           "complete" (Some "medium")
           (Some now) (Some (now - 86400000)) None;
    mkTask "3" "Implement user feedback"
           "Add the user feedback form to the dashboard"
           "incomplete" (Some "low")
           (Some (now + 86400000)) (Some (now - 172800000)) None;
    mkTask "4" "Update dependencies"
           "Update all npm packages to their latest versions"
           "incomplete" (Some "medium")
           (Some (now + 172800000)) (Some (now - 259200000)) None ].

Section WithJSON.
Context `{JSON (list Task)}.

(** The [else] branch of [loadTasks]: no usable stored value. *)
Definition loadTasks_seed (render : State) : Eff State unit :=
  now <- Date_now ;;
  let mockTasks := mockTasks now in
  localStorage_setItem "tasks" (JSON_stringify mockTasks) ;;
  setTasks mockTasks ;;
  applyFilters mockTasks (filters render).

(** The body of [loadTasks] after the simulated delay.  It is created by
    the mount effect, so [render] is the first render.
    [if (storedTasks)] fails on [null] and on the empty string. *)
Definition loadTasks (render : State) : Eff State unit :=
  try_finally
    (try_catch
       (storedTasks <- localStorage_getItem "tasks" ;;
        match storedTasks with
        | Some stored =>
            if truthy stored
            then
              parsedTasks <- lift_option "SyntaxError" (JSON_parse stored) ;;
              setTasks parsedTasks ;;
              applyFilters parsedTasks (filters render)
            else loadTasks_seed render
        | None => loadTasks_seed render
        end ;;
        setError None)
       (fun err =>
          console_error "Error loading tasks:" ;;
          setError (Some "Failed to load tasks. Please try again later.")))
    (setLoading false).

(** The [storage] listener.  It too is created by the mount effect.
    The [catch] branch is that of a text that is not JSON; a JSON text
    that is not an array of task records is outside the embedding (see
    [JSON]); [event_of_schema] names the event texts inside it. *)
Definition handleStorageChange (render : State) (e : StorageEvent)
  : Eff State unit :=
  if strict_eq (key e) "tasks"
  then
    try_catch
      (updatedTasks <- lift_option "SyntaxError"
                         (JSON_parse (or_default (newValue e) "[]")) ;;
       setTasks updatedTasks ;;
       applyFilters updatedTasks (filters render))
      (fun err => console_error "Error parsing tasks from storage:")
  else ret tt.

(** [useEffect(..., [])]: the effect runs once, after the first render;
    the listener it registers on [window] is the closure of that
    render and is never replaced. *)
Definition mounted_listener : StorageEvent -> Eff State unit :=
  handleStorageChange initialState.

(** [window.dispatchEvent(e)] from inside the component: the event is
    delivered synchronously to the listeners on [window], the
    component's own among them. *)
Definition window_dispatchEvent (e : StorageEvent) : Eff State unit :=
  record_event e ;; mounted_listener e.

(** [new Date()] stands in the callback of [map]; every evaluation of it
    in one run reads the same clock. *)
Definition handleStatusChange (render : State) (taskId : string)
  : Eff State unit :=
  now <- Date_now ;;
  let updatedTasks :=
    List.map (fun task =>
                if String.eqb (_id task) taskId
                then mkTask (_id task) (title task) (description task)
                            (if String.eqb (status task) "complete"
                             then "incomplete" else "complete")
                            (priority task) (dueDate task) (createdAt task)
                            (Some now)
                else task)
             (tasks render) in
  setTasks updatedTasks ;;
  applyFilters updatedTasks (filters render) ;;
  localStorage_setItem "tasks" (JSON_stringify updatedTasks) ;;
  window_dispatchEvent
    (mkEvent (Some "tasks") (Some (JSON_stringify updatedTasks))).

Definition startEditing (render : State) (task : Task) : Eff State unit :=
  setEditingTask (Some (_id task)) ;;
  setEditForm (fun _ => mkForm (title task) (description task)).

(** [{ ...prev, [name]: value }] for the two inputs of the form. *)
Definition handleInputChange (render : State) (name value : string)
  : Eff State unit :=
  setEditForm (fun prev =>
                 if String.eqb name "title" then mkForm value (form_description prev)
                 else if String.eqb name "description" then mkForm (form_title prev) value
                 else prev).

Definition saveTask (render : State) (taskId : string) : Eff State unit :=
  if negb (truthy (trim (form_title (editForm render))))
  then window_alert "Task title cannot be empty"
  else
    (now <- Date_now ;;
     let updatedTasks :=
       List.map (fun task =>
                   if String.eqb (_id task) taskId
                   then mkTask (_id task) (form_title (editForm render))
                               (form_description (editForm render))
                               (status task) (priority task) (dueDate task)
                               (createdAt task) (Some now)
                   else task)
                (tasks render) in
     setTasks updatedTasks ;;
     applyFilters updatedTasks (filters render) ;;
     setEditingTask None ;;
     localStorage_setItem "tasks" (JSON_stringify updatedTasks) ;;
     window_dispatchEvent
       (mkEvent (Some "tasks") (Some (JSON_stringify updatedTasks))))%eff.

Definition cancelEditing (render : State) : Eff State unit :=
  setEditingTask None.

(** What the mount effect starts: [loadTasks()] of the first render. *)
Definition load : Eff State unit := loadTasks initialState.

(** The [onClick] of the Clear Filters button. *)
Definition clearFilters (render : State) : Eff State unit :=
  setFilters (mkFilters "all" EmptyString) ;;
  applyFilters (tasks render) (mkFilters "all" EmptyString).

(** [priority?.toLowerCase()] and the [switch] on it. *)
Definition getPriorityClasses (priority : option string) : string :=
  match option_map toLowerCase priority with
  | Some p =>
      if String.eqb p "high" then "bg-red-100 text-red-800"
      else if String.eqb p "medium" then "bg-yellow-100 text-yellow-800"
      else if String.eqb p "low" then "bg-green-100 text-green-800"
      else "bg-gray-100 text-gray-800"
  | None => "bg-gray-100 text-gray-800"
  end.

(** *** What the component returns

    The element tree, as far as the cells decide it: which of the four
    screens, the two counts of the header, and for each record of the view
    whether its row is the edit form or the display. *)

Inductive Row : Type :=
| EditRow (task : Task) (titleInput descriptionInput : string)
| DisplayRow (task : Task).

Inductive Body : Type :=
| NoRows (message : string) (clearButton : bool)
| Rows (rows : list Row).

Inductive View : Type :=
| LoadingView
| ErrorView (message : string)
| EmptyView
| ListView (shown total : nat) (body : Body).

Definition render (st : State) : View :=
  if loading st then LoadingView
  else if truthy (default EmptyString (error st))
  then ErrorView (default EmptyString (error st))
  else if Nat.eqb (List.length (tasks st)) 0 then EmptyView
  else
    ListView
      (List.length (filteredTasks st)) (List.length (tasks st))
      (if Nat.eqb (List.length (filteredTasks st)) 0
       then
         let filtering :=
           (negb (String.eqb (f_status (filters st)) "all")
            || truthy (f_search (filters st)))%bool in
         NoRows (if filtering then "No tasks match your filters"
                 else "No tasks found. Create a new task to get started.")
                filtering
       else
         Rows (List.map (fun task =>
                           if strict_eq (editingTask st) (_id task)
                           then EditRow task (form_title (editForm st))
                                        (form_description (editForm st))
                           else DisplayRow task)
                        (filteredTasks st))).

(** *** The events of a mounted panel *)

Inductive Event : Type :=
| StorageArrives (e : StorageEvent)
| FilterChange (filterType value : string)
| ClearFilters
| StatusChange (taskId : string)
| StartEditing (task : Task)
| InputChange (name value : string)
| Save (taskId : string)
| CancelEditing.

(** The handler that the current render attached to the control, or the
    listener of the mount effect. *)
Definition handle (ev : Event) (w : World) (st : State)
  : completion unit * World * State :=
  match ev with
  | StorageArrives e => mounted_listener e w st
  | FilterChange filterType value =>
      fire (fun render => handleFilterChange render filterType value) w st
  | ClearFilters => fire clearFilters w st
  | StatusChange taskId => fire (fun render => handleStatusChange render taskId) w st
  | StartEditing task => fire (fun render => startEditing render task) w st
  | InputChange name value =>
      fire (fun render => handleInputChange render name value) w st
  | Save taskId => fire (fun render => saveTask render taskId) w st
  | CancelEditing => fire cancelEditing w st
  end.

(** The cells a mounted panel can hold: those of the first render, and
    those after the load or after an event, whatever the browser holds at
    that moment. *)
Inductive reachable : State -> Prop :=
| reachable_initial : reachable initialState
| reachable_load (w : World) (st : State) :
    reachable st -> reachable (state_of (load w st))
| reachable_event (ev : Event) (w : World) (st : State) :
    reachable st -> reachable (state_of (handle ev w st)).

(** The same with the texts of the persisted layout only: what the load
    finds under [tasks] and what a [tasks] event carries is not JSON or
    is the JSON of an array of task records.  The events that the panel
    dispatches to itself carry the output of [JSON.stringify]. *)
Context `{JSONSyntax}.

Definition store_of_schema (w : World) : Prop :=
  forall stored, localStorage w !! "tasks" = Some stored -> of_schema (list Task) stored.

Definition event_of_schema (e : StorageEvent) : Prop :=
  key e = Some "tasks" -> of_schema (list Task) (or_default (newValue e) "[]").

Definition is_action (ev : Event) : Prop :=
  match ev with
  | StorageArrives _ => False
  | _ => True
  end.

Inductive reachable_in_schema : State -> Prop :=
| in_schema_initial : reachable_in_schema initialState
| in_schema_load (w : World) (st : State) :
    store_of_schema w -> reachable_in_schema st ->
    reachable_in_schema (state_of (load w st))
| in_schema_storage (e : StorageEvent) (w : World) (st : State) :
    event_of_schema e -> reachable_in_schema st ->
    reachable_in_schema (state_of (handle (StorageArrives e) w st))
| in_schema_action (ev : Event) (w : World) (st : State) :
    is_action ev -> reachable_in_schema st ->
    reachable_in_schema (state_of (handle ev w st)).

End WithJSON.

End TaskList.

(** ** The activity-log panel (RecentUsers.jsx) *)

Module RecentUsers.

Local Open Scope eff_scope.

(** The [useState] cells of the component. *)
Record State := mkState {
  userLogs : list UserLog;
  loading : bool;
  deleteConfirm : option string
}.

(** The cells of the first render. *)
Definition initialState : State := mkState [] true None.

Definition setUserLogs (v : list UserLog) : Eff State unit :=
  modify (fun s => mkState v (loading s) (deleteConfirm s)).
Definition setLoading (v : bool) : Eff State unit :=
  modify (fun s => mkState (userLogs s) v (deleteConfirm s)).
Definition setDeleteConfirm (v : option string) : Eff State unit :=
  modify (fun s => mkState (userLogs s) (loading s) v).

(** The seed literal; each [Date.now()] in it reads [now]. *)
Definition mockLogs (now : instant) : list UserLog :=
  [ mkLog "1" "admin-123" "admin@example.com" "admin" "login"
          (now - 3600000) None "192.168.1.1" "eyJhbGciOi...";
    mkLog "2" "user-456" "user@example.com" "user" "login"
          (now - 7200000) (Some (now - 3600000)) "192.168.1.2" "eyJhbGciOi...";
    mkLog "3" "user-789" "test@example.com" "user" "login"
          (now - 86400000) (Some (now - 82800000)) "192.168.1.3" "eyJhbGciOi..." ].

(** [(a, b) => new Date(b.loginTime) - new Date(a.loginTime)] *)
Definition byLoginTime (a b : UserLog) : Z := loginTime b - loginTime a.

Section WithJSON.
Context `{JSON (list UserLog)}.

(** The [else] branch of [loadUserLogs]: no usable stored value. *)
Definition loadUserLogs_seed : Eff State unit :=
  now <- Date_now ;;
  let mockLogs := mockLogs now in
  localStorage_setItem "userLogs" (JSON_stringify mockLogs) ;;
  setUserLogs mockLogs.

(** The body of [loadUserLogs] after the simulated delay. *)
Definition loadUserLogs (render : State) : Eff State unit :=
  try_catch
    (storedLogs <- localStorage_getItem "userLogs" ;;
     match storedLogs with
     | Some stored =>
         if (truthy stored && negb (String.eqb stored "null")
             && negb (String.eqb stored "[]"))%bool
         then
           parsedLogs <- lift_option "SyntaxError" (JSON_parse stored) ;;
           let sortedLogs := Array_sort byLoginTime parsedLogs in
           setUserLogs sortedLogs
         else loadUserLogs_seed
     | None => loadUserLogs_seed
     end ;;
     setLoading false)
    (fun err =>
       console_error "Error loading user logs:" ;;
       setLoading false).

Definition handleDelete (render : State) (logId : string) : Eff State unit :=
  if negb (strict_eq (deleteConfirm render) logId)
  then setDeleteConfirm (Some logId)
  else
    let updatedLogs :=
      List.filter (fun log => negb (String.eqb (log_id log) logId))
                  (userLogs render) in
    setUserLogs updatedLogs ;;
    localStorage_setItem "userLogs" (JSON_stringify updatedLogs) ;;
    setDeleteConfirm None.

Definition cancelDelete (render : State) : Eff State unit :=
  setDeleteConfirm None.

Definition resetLogs (render : State) : Eff State unit :=
  now <- Date_now ;;
  let mockLogs := mockLogs now in
  localStorage_setItem "userLogs" (JSON_stringify mockLogs) ;;
  setUserLogs mockLogs.

(** What the mount effect starts: [loadUserLogs()] of the first render. *)
Definition load : Eff State unit := loadUserLogs initialState.

(** *** The events of a mounted panel *)

Inductive Event : Type :=
| Delete (logId : string)
| CancelDelete
| ResetLogs.

Definition handle (ev : Event) (w : World) (st : State)
  : completion unit * World * State :=
  match ev with
  | Delete logId => fire (fun render => handleDelete render logId) w st
  | CancelDelete => fire cancelDelete w st
  | ResetLogs => fire resetLogs w st
  end.

(** The cells a mounted panel can hold once it has loaded. *)
Inductive reachable : State -> Prop :=
| reachable_load (w : World) : reachable (state_of (load w initialState))
| reachable_event (ev : Event) (w : World) (st : State) :
    reachable st -> reachable (state_of (handle ev w st)).

End WithJSON.

End RecentUsers.

(** ** The route guard and the route table (App.jsx) *)

Module App.

(** What [useAuth()] gives the guard: whether there is a user object, and
    the role test of the authentication context. *)
Record Auth := mkAuth {
  user : bool;
  hasRole : string -> bool
}.

(** What the guard returns: a [Navigate] element, with the [from] of its
    [state] when it has one, or the children. *)
Inductive Outcome : Type :=
| NavigateTo (to : string) (from : option string)
| Children.

(** [!!v] of a string or [null]. *)
Definition truthy_opt (v : option string) : bool :=
  match v with
  | Some s => truthy s
  | None => false
  end.

Definition ProtectedRoute (auth : Auth) (storage : gmap string string)
           (pathname : string) (requiredRole : option string) : Outcome :=
  let isAuthenticated := (user auth || truthy_opt (storage !! "token"))%bool in
  if negb isAuthenticated
  then NavigateTo "/login" (Some pathname)
  else
    match requiredRole with
    | Some requiredRole' =>
        if (truthy requiredRole' && negb (hasRole auth requiredRole'))%bool
        then
          let userRole := storage !! "userRole" in
          let redirectPath :=
            if strict_eq userRole "admin" then "/admin/dashboard"
            else "/user/dashboard" in
          NavigateTo redirectPath None
        else Children
    | None => Children
    end.

(** The [element] of a [Route]. *)
Inductive Element : Type :=
| Public (page : string)
| Protected (requiredRole : option string) (page : string)
| Fallback (to : string).

(** The [Routes] of [App], in the order of the source. *)
Definition routes : list (string * Element) :=
  [ ("/", Public "SimpleDashboardPanel");
    ("/login", Public "Login");
    ("/signup", Public "Signup");
    ("/forgot-password", Public "ForgotPassword");
    ("/reset-password", Public "ResetPassword");
    ("/landing", Protected None "Landing");
    ("/admin/dashboard", Protected (Some "admin") "Dashboard");
    ("/admin/users", Protected (Some "admin") "Users");
    ("/admin/manage-users", Protected (Some "admin") "ManageUsers");
    ("/admin/manage-tasks", Protected (Some "admin") "ManageTasks");
    ("/admin/settings", Protected (Some "admin") "Settings");
    ("/admin/user-logs", Protected (Some "admin") "UserLogPage");
    ("/admin/task-filter", Protected (Some "admin") "TaskFilter");
    ("/user/dashboard", Protected None "UserDashboard");
    ("/user/userpage", Protected None "UserPage");
    ("/user/notifications", Protected None "NotificationsPage");
    ("/user/calendar", Protected None "CalendarPage");
    ("/user/profile", Protected None "ProfilePage");
    ("/user/task-filter", Protected None "TaskFilter");
    ("*", Fallback "/") ].

(** What a route puts on the screen. *)
Inductive Screen : Type :=
| Shows (page : string)
| GoesTo (to : string).

Definition element_screen (auth : Auth) (storage : gmap string string)
           (pathname : string) (el : Element) : Screen :=
  match el with
  | Public page => Shows page
  | Protected requiredRole page =>
      match ProtectedRoute auth storage pathname requiredRole with
      | Children => Shows page
      | NavigateTo to _ => GoesTo to
      end
  | Fallback to => GoesTo to
  end.

(** The element of the route declared with exactly this path. *)
Definition route_element (path : string) : option Element :=
  match List.find (fun r => String.eqb (fst r) path) routes with
  | Some r => Some (snd r)
  | None => None
  end.

Definition authenticated (auth : Auth) (storage : gmap string string) : Prop :=
  user auth = true \/ exists token, storage !! "token" = Some token /\ token <> EmptyString.

End App.

(** ** A reference codec

    A printer of the JSON text of the two arrays, with the fields of a
    record in a fixed order, an instant written as its decimal text in
    quotes and an absent field as [null], and a reader of exactly that
    text.  It instantiates the [JSON] interface wherever a statement is
    evaluated on concrete data. *)

Module Codec.

Definition reader (A : Type) : Type := string -> option (A * string).

(** Printers take the rest of the text as a second argument. *)
Definition put_lit (p : string) (k : string) : string := (p ++ k)%string.

Fixpoint strip (p s : string) : option string :=
  match p with
  | EmptyString => Some s
  | String a p' =>
      match s with
      | String b s' => if Ascii.eqb a b then strip p' s' else None
      | EmptyString => None
      end
  end.

Definition read_lit (p : string) : reader unit :=
  fun s => match strip p s with Some r => Some (tt, r) | None => None end.

Definition dquote : ascii := "034"%char.
Definition bslash : ascii := "092"%char.

Definition needs_escape (c : ascii) : bool :=
  (Ascii.eqb c dquote || Ascii.eqb c bslash)%bool.

Fixpoint put_body (s : string) (k : string) : string :=
  match s with
  | EmptyString => String dquote k
  | String c r =>
      if needs_escape c then String bslash (String c (put_body r k))
      else String c (put_body r k)
  end.

Definition put_string (s : string) (k : string) : string :=
  String dquote (put_body s k).

Fixpoint read_body (s : string) : option (string * string) :=
  match s with
  | EmptyString => None
  | String c r =>
      if Ascii.eqb c dquote then Some (EmptyString, r)
      else if Ascii.eqb c bslash then
        match r with
        | String d r' =>
            if needs_escape d
            then match read_body r' with
                 | Some (b, k) => Some (String d b, k)
                 | None => None
                 end
            else None
        | EmptyString => None
        end
      else match read_body r with
           | Some (b, k) => Some (String c b, k)
           | None => None
           end
  end.

Definition read_string : reader string :=
  fun s =>
    match s with
    | String c r => if Ascii.eqb c dquote then read_body r else None
    | EmptyString => None
    end.

Definition put_instant (z : instant) (k : string) : string :=
  put_string (NilEmpty.string_of_int (Z.to_int z)) k.

Definition read_instant : reader instant :=
  fun s =>
    match read_string s with
    | Some (d, k) =>
        match NilEmpty.int_of_string d with
        | Some i => Some (Z.of_int i, k)
        | None => None
        end
    | None => None
    end.

Definition put_option {A} (put : A -> string -> string) (o : option A) (k : string)
  : string :=
  match o with
  | Some a => put a k
  | None => put_lit "null" k
  end.

Definition read_option {A} (read : reader A) : reader (option A) :=
  fun s =>
    match strip "null" s with
    | Some k => Some (None, k)
    | None =>
        match read s with
        | Some (a, k) => Some (Some a, k)
        | None => None
        end
    end.

(** [{"name":] and [,"name":] *)
Definition label (sep name : string) : string :=
  (sep ++ String dquote (name ++ String dquote ":"))%string.

Definition andThen {A B} (r : reader A) (f : A -> reader B) : reader B :=
  fun s => match r s with Some (a, k) => f a k | None => None end.

Definition field {A} (label : string) (read : reader A) : reader A :=
  andThen (read_lit label) (fun _ => read).

Definition put_task (t : Task) (k : string) : string :=
  put_lit (label "{" "_id") (put_string (_id t)
  (put_lit (label "," "title") (put_string (title t)
  (put_lit (label "," "description") (put_string (description t)
  (put_lit (label "," "status") (put_string (status t)
  (put_lit (label "," "priority") (put_option put_string (priority t)
  (put_lit (label "," "dueDate") (put_option put_instant (dueDate t)
  (put_lit (label "," "createdAt") (put_option put_instant (createdAt t)
  (put_lit (label "," "updatedAt") (put_option put_instant (updatedAt t)
  (put_lit "}" k)))))))))))))))).

Definition read_task : reader Task :=
  andThen (field (label "{" "_id") read_string) (fun a =>
  andThen (field (label "," "title") read_string) (fun b =>
  andThen (field (label "," "description") read_string) (fun c =>
  andThen (field (label "," "status") read_string) (fun d =>
  andThen (field (label "," "priority") (read_option read_string)) (fun e =>
  andThen (field (label "," "dueDate") (read_option read_instant)) (fun f =>
  andThen (field (label "," "createdAt") (read_option read_instant)) (fun g =>
  andThen (field (label "," "updatedAt") (read_option read_instant)) (fun h =>
  andThen (read_lit "}") (fun _ k =>
  Some (mkTask a b c d e f g h, k)))))))))).

Definition put_log (l : UserLog) (k : string) : string :=
  put_lit (label "{" "id") (put_string (log_id l)
  (put_lit (label "," "userId") (put_string (userId l)
  (put_lit (label "," "username") (put_string (username l)
  (put_lit (label "," "role") (put_string (role l)
  (put_lit (label "," "action") (put_string (action l)
  (put_lit (label "," "loginTime") (put_instant (loginTime l)
  (put_lit (label "," "logoutTime") (put_option put_instant (logoutTime l)
  (put_lit (label "," "ipAddress") (put_string (ipAddress l)
  (put_lit (label "," "tokenName") (put_string (tokenName l)
  (put_lit "}" k)))))))))))))))))).

Definition read_log : reader UserLog :=
  andThen (field (label "{" "id") read_string) (fun a =>
  andThen (field (label "," "userId") read_string) (fun b =>
  andThen (field (label "," "username") read_string) (fun c =>
  andThen (field (label "," "role") read_string) (fun d =>
  andThen (field (label "," "action") read_string) (fun e =>
  andThen (field (label "," "loginTime") read_instant) (fun f =>
  andThen (field (label "," "logoutTime") (read_option read_instant)) (fun g =>
  andThen (field (label "," "ipAddress") read_string) (fun h =>
  andThen (field (label "," "tokenName") read_string) (fun i =>
  andThen (read_lit "}") (fun _ k =>
  Some (mkLog a b c d e f g h i, k))))))))))).

(** The records of a non-empty array, separated by commas, up to the
    closing bracket. *)
Fixpoint put_items {A} (put : A -> string -> string) (x : A) (l : list A) (k : string)
  : string :=
  match l with
  | [] => put x (String "]" k)
  | y :: l' => put x (String "," (put_items put y l' k))
  end.

Definition put_array {A} (put : A -> string -> string) (l : list A) (k : string)
  : string :=
  match l with
  | [] => String "[" (String "]" k)
  | x :: l' => String "[" (put_items put x l' k)
  end.

Fixpoint read_items {A} (read : reader A) (fuel : nat) (s : string)
  : option (list A * string) :=
  match fuel with
  | O => None
  | S fuel' =>
      match read s with
      | Some (x, String c r) =>
          if Ascii.eqb c "]" then Some ([x], r)
          else if Ascii.eqb c "," then
            match read_items read fuel' r with
            | Some (l, k) => Some (x :: l, k)
            | None => None
            end
          else None
      | _ => None
      end
  end.

Definition read_array {A} (read : reader A) : reader (list A) :=
  fun s =>
    match s with
    | String c r =>
        if Ascii.eqb c "["
        then match r with
             | String d r' =>
                 if Ascii.eqb d "]" then Some ([], r')
                 else read_items read (String.length r) r
             | EmptyString => None
             end
        else None
    | EmptyString => None
    end.

(** A printer only adds text in front of the rest. *)
Definition extends {A} (put : A -> string -> string) : Prop :=
  forall a k, (String.length k <= String.length (put a k))%nat.

(** The whole text must be read. *)
Definition parse {A} (read : reader A) (s : string) : option (list A) :=
  match read_array read s with
  | Some (l, EmptyString) => Some l
  | _ => None
  end.

Definition stringify {A} (put : A -> string -> string) (l : list A) : string :=
  put_array put l EmptyString.

#[export] Instance tasks : JSON (list Task) :=
  {| JSON_parse := parse read_task; JSON_stringify := stringify put_task |}.

#[export] Instance logs : JSON (list UserLog) :=
  {| JSON_parse := parse read_log; JSON_stringify := stringify put_log |}.

(** The texts that the reader of task arrays accepts. *)
#[export] Instance tasks_syntax : JSONSyntax :=
  {| JSON_valid := fun s => match parse read_task s with
                            | Some _ => true
                            | None => false
                            end |}.

End Codec.

(** ** Sample runs

    A browser with nothing stored, and the panels mounted in it with the
    reference codec. *)

Module Sample.

Import Codec.

Definition T0 : instant := 1700000000000.

Definition browser : World := mkWorld ∅ T0 [] [] [].

(** The task panel after its load in [browser]. *)
Definition panelA_loaded := TaskList.load browser TaskList.initialState.

(** ... and after the user has chosen the status filter [complete]. *)
Definition panelA_filtered :=
  fire (fun render => TaskList.handleFilterChange render "status" "complete")
       (world_of panelA_loaded) (state_of panelA_loaded).

(** A second task panel mounted in the same browser, after its load and
    after a click on the toggle of task [2]. *)
Definition panelB_loaded :=
  TaskList.load (world_of panelA_filtered) TaskList.initialState.

Definition panelB_toggled :=
  fire (fun render => TaskList.handleStatusChange render "2")
       (world_of panelB_loaded) (state_of panelB_loaded).

(** The event that the toggle in panel B dispatched. *)
Definition broadcast : StorageEvent :=
  mkEvent (Some "tasks")
          (Some (JSON_stringify (TaskList.tasks (state_of panelB_toggled)))).

(** Panel A receives the event. *)
Definition panelA_synced :=
  TaskList.mounted_listener broadcast (world_of panelB_toggled)
                            (state_of panelA_filtered).

(** Two clicks on the toggle of task [1] within one millisecond. *)
Definition toggled_once :=
  fire (fun render => TaskList.handleStatusChange render "1")
       (world_of panelA_loaded) (state_of panelA_loaded).

Definition toggled_twice :=
  fire (fun render => TaskList.handleStatusChange render "1")
       (world_of toggled_once) (state_of toggled_once).

(** A browser in which [tasks] holds the empty string, and one in which
    it holds a text that is not JSON. *)
Definition browser_empty_text : World :=
  mkWorld {["tasks" := EmptyString]} T0 [] [] [].

Definition browser_garbage : World :=
  mkWorld {["tasks" := "<html>"]} T0 [] [] [].

(** The task panel while the title of the edit form is blank. *)
Definition panelA_blank_title : TaskList.State :=
  TaskList.mkState (TaskList.mockTasks T0) (TaskList.mockTasks T0) false None
                   (Some "1") (TaskList.mkForm "   " "x") (mkFilters "all" EmptyString).

(** The activity-log panel after its load in [browser]. *)
Definition logs_loaded := RecentUsers.load browser RecentUsers.initialState.

(** The task panel while the edit form of task [1] holds a new title. *)
Definition panelA_new_title : TaskList.State :=
  TaskList.mkState (TaskList.mockTasks T0) (TaskList.mockTasks T0) false None
                   (Some "1") (TaskList.mkForm "Write the manual" "In progress")
                   (mkFilters "all" EmptyString).

(** The activity-log panel with the deletion of log [2] pending, and after
    its confirmation. *)
Definition logs_pending :=
  fire (fun render => RecentUsers.handleDelete render "2")
       (world_of logs_loaded) (state_of logs_loaded).

Definition logs_deleted :=
  fire (fun render => RecentUsers.handleDelete render "2")
       (world_of logs_pending) (state_of logs_pending).

(** An activity-log panel whose only record is pending. *)
Definition logs_last_pending : RecentUsers.State :=
  RecentUsers.mkState
    [ mkLog "7" "user-456" "user@example.com" "user" "login"
            T0 None "192.168.1.2" "eyJhbGciOi..." ]
    false (Some "7").

(** Browsers in which [userLogs] holds the text [null], and a text that
    is not JSON. *)
Definition browser_logs_null : World :=
  mkWorld {["userLogs" := "null"]} T0 [] [] [].

Definition browser_logs_garbage : World :=
  mkWorld {["userLogs" := "<html>"]} T0 [] [] [].

(** A visitor with a token and the stored role [user], whom the context
    knows no role of; and the store of one with the stored role [admin]. *)
Definition visitor : App.Auth := App.mkAuth false (fun _ => false).

Definition visitor_storage : gmap string string :=
  {["token" := "eyJhbGciOi"; "userRole" := "user"]}.

(** A signed-in administrator. *)
Definition administrator : App.Auth :=
  App.mkAuth true (fun r => String.eqb r "admin").

End Sample.

(** ** What the filter engine is meant to keep

    The two criteria in the words of the specification, as propositions
    and as the decision procedure they are compared with. *)

(** [needle] occurs in [hay] when letter case is ignored. *)
Definition substring_ci (needle hay : string) : Prop :=
  exists a m b, hay = (a ++ m ++ b)%string /\ toLowerCase m = toLowerCase needle.

Definition passes_status (spec : FilterSpec) (t : Task) : Prop :=
  f_status spec <> "all" -> status t = f_status spec.

Definition passes_search (spec : FilterSpec) (t : Task) : Prop :=
  trim (f_search spec) <> EmptyString ->
  substring_ci (trim (toLowerCase (f_search spec))) (title t) \/
  substring_ci (trim (toLowerCase (f_search spec))) (description t).

Definition retained (spec : FilterSpec) (t : Task) : Prop :=
  passes_status spec t /\ passes_search spec t.

(** *** The same over the builtins of the platform *)

(** [needle] occurs in [hay]. *)
Definition occurs (needle hay : string) : Prop :=
  exists a b, hay = (a ++ needle ++ b)%string.

(** [needle] occurs in [hay] when letter case is ignored: a part of [hay]
    and [needle] have the same lower case. *)
Definition occurs_ci (B : StringBuiltins) (needle hay : string) : Prop :=
  exists a m b, hay = (a ++ m ++ b)%string /\
                builtin_toLowerCase m = builtin_toLowerCase needle.

(** The criteria as the specification words them: a case-insensitive
    occurrence in the title or the description. *)
Definition retained_as_worded (B : StringBuiltins) (spec : FilterSpec) (t : Task) : Prop :=
  passes_status spec t /\
  (builtin_trim (f_search spec) <> EmptyString ->
   occurs_ci B (builtin_trim (builtin_toLowerCase (f_search spec))) (title t) \/
   occurs_ci B (builtin_trim (builtin_toLowerCase (f_search spec))) (description t)).

(** The criteria as the code has them: an occurrence in the title or the
    description once that field is lower-cased as a whole. *)
Definition kept (B : StringBuiltins) (spec : FilterSpec) (t : Task) : Prop :=
  passes_status spec t /\
  (builtin_trim (f_search spec) <> EmptyString ->
   occurs (builtin_trim (builtin_toLowerCase (f_search spec)))
          (builtin_toLowerCase (title t)) \/
   occurs (builtin_trim (builtin_toLowerCase (f_search spec)))
          (builtin_toLowerCase (description t))).

Definition kept_b (B : StringBuiltins) (spec : FilterSpec) (t : Task) : bool :=
  ((String.eqb (f_status spec) "all" || String.eqb (status t) (f_status spec))
   && (negb (truthy (builtin_trim (f_search spec)))
       || includes (builtin_toLowerCase (title t))
                   (builtin_trim (builtin_toLowerCase (f_search spec)))
       || includes (builtin_toLowerCase (description t))
                   (builtin_trim (builtin_toLowerCase (f_search spec)))))%bool.

(** ** What a toggle is meant to do to a record

    [toggled taskId now t t']: [t'] is [t] after [toggleStatus(taskId)] at
    clock reading [now]. *)

Definition flipped (before after : string) : Prop :=
  (before = "complete" -> after = "incomplete") /\
  (before = "incomplete" -> after = "complete").

Definition toggled (taskId : string) (now : instant) (t t' : Task) : Prop :=
  if decide (_id t = taskId)
  then
    flipped (status t) (status t') /\
    updatedAt t' = Some now /\
    _id t' = _id t /\ title t' = title t /\ description t' = description t /\
    priority t' = priority t /\ dueDate t' = dueDate t /\ createdAt t' = createdAt t
  else t' = t.

(** [edited taskId newTitle newDescription now t t']: [t'] is [t] after a
    save of the edit form for [taskId] at clock reading [now]. *)
Definition edited (taskId newTitle newDescription : string) (now : instant)
           (t t' : Task) : Prop :=
  if decide (_id t = taskId)
  then
    title t' = newTitle /\ description t' = newDescription /\
    updatedAt t' = Some now /\
    _id t' = _id t /\ status t' = status t /\
    priority t' = priority t /\ dueDate t' = dueDate t /\ createdAt t' = createdAt t
  else t' = t.

(** [t'] is [t] but for the time stamp of the last change, which is [now]
    when the record has the identifier [taskId]. *)
Definition restamped (taskId : string) (now : instant) (t t' : Task) : Prop :=
  _id t' = _id t /\ title t' = title t /\ description t' = description t /\
  status t' = status t /\ priority t' = priority t /\ dueDate t' = dueDate t /\
  createdAt t' = createdAt t /\
  updatedAt t' = if decide (_id t = taskId) then Some now else updatedAt t.

(** The title of the record is not blank. *)
Definition titled (t : Task) : Prop := trim (title t) <> EmptyString.

(** The status of the record is one of the two of the panel. *)
Definition two_valued (t : Task) : Prop :=
  status t = "complete" \/ status t = "incomplete".

(** [after] is an instant strictly later than [before]; a record without a
    time stamp counts as older than any. *)
Definition strictly_later (before after : option instant) : Prop :=
  match before, after with
  | Some b, Some a => b < a
  | None, Some _ => True
  | _, None => False
  end.

(** Most recent first. *)
Definition newest_first : list UserLog -> Prop :=
  StronglySorted (fun a b => loginTime b <= loginTime a).

Definition retained_b (spec : FilterSpec) (t : Task) : bool :=
  ((String.eqb (f_status spec) "all" || String.eqb (status t) (f_status spec))
   && (negb (truthy (trim (f_search spec)))
       || includes (toLowerCase (title t)) (trim (toLowerCase (f_search spec)))
       || includes (toLowerCase (description t)) (trim (toLowerCase (f_search spec)))))%bool.

(** * Properties *)

(** ** Strings *)

Section StringFacts.

Lemma truthy_spec (s : string) : truthy s = true <-> s <> EmptyString.
Proof. destruct s; simpl; split; congruence. Qed.

Lemma truthy_false (s : string) : truthy s = false <-> s = EmptyString.
Proof. destruct s; simpl; split; congruence. Qed.

Lemma startsWith_spec (s p : string) :
  startsWith s p = true <-> exists b, s = (p ++ b)%string.
Proof.
  revert s; induction p as [|a p IH]; intros s; simpl.
  - split; [intros _; exists s; reflexivity | reflexivity].
  - destruct s as [|c s].
    + split; [discriminate | intros [b Hb]; discriminate].
    + destruct (Ascii.eqb_spec a c) as [->|Hne]; simpl.
      * rewrite IH. split; intros [b Hb]; exists b; congruence.
      * split; [discriminate | intros [b Hb]; congruence].
Qed.

Lemma includes_spec (s t : string) :
  includes s t = true <-> exists a b, s = (a ++ t ++ b)%string.
Proof.
  induction s as [|c s IH]; simpl.
  - rewrite orb_false_r, startsWith_spec. split.
    + intros [b Hb]. exists EmptyString, b. exact Hb.
    + intros [a [b Hab]]. destruct a; [eauto | discriminate].
  - rewrite orb_true_iff, startsWith_spec, IH. split.
    + intros [[b Hb] | [a [b Hab]]].
      * exists EmptyString, b. exact Hb.
      * exists (String c a), b. simpl. congruence.
    + intros [a [b Hab]]. destruct a as [|d a]; simpl in Hab.
      * left. eauto.
      * right. exists a, b. congruence.
Qed.

Lemma lower_char_idem (c : ascii) : lower_char (lower_char c) = lower_char c.
Proof. destruct c as [[] [] [] [] [] [] [] []]; reflexivity. Qed.

Lemma is_space_lower_char (c : ascii) : is_space (lower_char c) = is_space c.
Proof. destruct c as [[] [] [] [] [] [] [] []]; reflexivity. Qed.

Lemma toLowerCase_idem (s : string) : toLowerCase (toLowerCase s) = toLowerCase s.
Proof. induction s; simpl; [|rewrite lower_char_idem]; congruence. Qed.

Lemma toLowerCase_app (s t : string) :
  toLowerCase (s ++ t) = (toLowerCase s ++ toLowerCase t)%string.
Proof. induction s; simpl; congruence. Qed.

Lemma toLowerCase_split (s x y : string) :
  toLowerCase s = (x ++ y)%string ->
  exists s1 s2, s = (s1 ++ s2)%string /\ toLowerCase s1 = x /\ toLowerCase s2 = y.
Proof.
  revert s; induction x as [|c x IH]; intros s Hs; simpl in Hs.
  - exists EmptyString, s. auto.
  - destruct s as [|d s]; simpl in Hs; [discriminate|].
    injection Hs as Hc Hs. destruct (IH _ Hs) as (s1 & s2 & -> & H1 & H2).
    exists (String d s1), s2. simpl. repeat split; congruence.
Qed.

Lemma toLowerCase_trimStart (s : string) :
  toLowerCase (trimStart s) = trimStart (toLowerCase s).
Proof.
  induction s as [|c s IH]; simpl; [reflexivity|].
  rewrite is_space_lower_char. destruct (is_space c); simpl; congruence.
Qed.

Lemma toLowerCase_trimEnd (s : string) :
  toLowerCase (trimEnd s) = trimEnd (toLowerCase s).
Proof.
  induction s as [|c s IH]; simpl; [reflexivity|].
  rewrite <- IH, is_space_lower_char.
  destruct (trimEnd s); simpl; [destruct (is_space c)|]; reflexivity.
Qed.

Lemma toLowerCase_trim (s : string) : toLowerCase (trim s) = trim (toLowerCase s).
Proof. unfold trim. now rewrite toLowerCase_trimEnd, toLowerCase_trimStart. Qed.

(** On a needle that is already in lower case, the test of the code is
    the occurrence up to letter case. *)
Lemma includes_substring_ci (hay needle : string) :
  toLowerCase needle = needle ->
  includes (toLowerCase hay) needle = true <-> substring_ci needle hay.
Proof.
  intros Hn. rewrite includes_spec. unfold substring_ci. split.
  - intros (a & b & Hab).
    apply toLowerCase_split in Hab as (s1 & s2 & -> & H1 & H2).
    apply toLowerCase_split in H2 as (m & s3 & -> & H2 & H3).
    exists s1, m, s3. split; congruence.
  - intros (a & m & b & -> & Hm).
    exists (toLowerCase a), (toLowerCase b).
    rewrite !toLowerCase_app. congruence.
Qed.

End StringFacts.

(** ** The filter engine *)

Section FilterFacts.

Lemma filter_true_id {A} (l : list A) : List.filter (fun _ => true) l = l.
Proof. induction l; simpl; congruence. Qed.

Lemma filter_filter_andb {A} (p q : A -> bool) (l : list A) :
  List.filter q (List.filter p l) = List.filter (fun x => (p x && q x)%bool) l.
Proof.
  induction l as [|x l IH]; simpl; [reflexivity|].
  destruct (p x); simpl; [destruct (q x)|]; congruence.
Qed.

Lemma filter_idem {A} (p : A -> bool) (l : list A) :
  List.filter p (List.filter p l) = List.filter p l.
Proof.
  rewrite filter_filter_andb. apply List.filter_ext. intros x. now destruct (p x).
Qed.

Lemma filter_sublist {A} (p : A -> bool) (l : list A) :
  sublist (List.filter p l) l.
Proof.
  induction l as [|x l IH]; simpl; [constructor|].
  destruct (p x); now constructor.
Qed.

(** The two passes of [applyFilters] are one pass with the conjunction. *)
Lemma applyFilters_result_filter (taskList : list Task) (spec : FilterSpec) :
  applyFilters_result taskList spec = List.filter (retained_b spec) taskList.
Proof.
  unfold applyFilters_result, retained_b.
  destruct (String.eqb (f_status spec) "all"); simpl;
    destruct (truthy (trim (f_search spec))); simpl;
    rewrite ?filter_filter_andb; try apply List.filter_ext; intros;
    rewrite ?andb_true_r; try reflexivity.
  symmetry. apply filter_true_id.
Qed.

Lemma toLowerCase_searchTerm (search : string) :
  toLowerCase (trim (toLowerCase search)) = trim (toLowerCase search).
Proof. now rewrite toLowerCase_trim, toLowerCase_idem. Qed.

Lemma retained_b_spec (spec : FilterSpec) (t : Task) :
  retained_b spec t = true <-> retained spec t.
Proof.
  unfold retained_b, retained, passes_status, passes_search.
  rewrite andb_true_iff, !orb_true_iff, negb_true_iff, truthy_false.
  rewrite !String.eqb_eq.
  rewrite !(includes_substring_ci _ _ (toLowerCase_searchTerm _)).
  split.
  - intros [Hs Hq]. split.
    + intros Hall. destruct Hs; [contradiction | assumption].
    + intros Hne. destruct Hq as [[He | Ht] | Hd]; [contradiction | auto | auto].
  - intros [Hs Hq]. split.
    + destruct (string_dec (f_status spec) "all"); auto.
    + destruct (string_dec (trim (f_search spec)) EmptyString); auto.
      destruct (Hq n); auto.
Qed.

(** On the ASCII builtins the wording of the specification and the test
    of the code agree: lower-casing is letter by letter there. *)
Lemma applyFilters_result_retained (taskList : list Task) (spec : FilterSpec) :
  (forall t, retained_b spec t = true <-> retained spec t) /\
  applyFilters_result taskList spec = List.filter (retained_b spec) taskList /\
  (forall t, In t (applyFilters_result taskList spec) <->
             In t taskList /\ retained spec t) /\
  sublist (applyFilters_result taskList spec) taskList.
Proof.
  pose proof (retained_b_spec spec) as Hspec.
  rewrite applyFilters_result_filter.
  split; [exact Hspec|]. split; [reflexivity|]. split; [|apply filter_sublist].
  intros t. rewrite List.filter_In, Hspec. reflexivity.
Qed.

Lemma applyFilters_result_instance (taskList : list Task) (spec : FilterSpec) :
  applyFilters_result taskList spec = applyFilters_with ascii_builtins taskList spec.
Proof. reflexivity. Qed.

Lemma applyFilters_with_filter (B : StringBuiltins)
      (taskList : list Task) (spec : FilterSpec) :
  applyFilters_with B taskList spec = List.filter (kept_b B spec) taskList.
Proof.
  unfold applyFilters_with, kept_b.
  destruct (String.eqb (f_status spec) "all"); simpl;
    destruct (truthy (builtin_trim (f_search spec))); simpl;
    rewrite ?filter_filter_andb; try apply List.filter_ext; intros;
    rewrite ?andb_true_r; try reflexivity.
  symmetry. apply filter_true_id.
Qed.

Lemma kept_b_spec (B : StringBuiltins) (spec : FilterSpec) (t : Task) :
  kept_b B spec t = true <-> kept B spec t.
Proof.
  unfold kept_b, kept, passes_status, occurs.
  rewrite andb_true_iff, !orb_true_iff, negb_true_iff, truthy_false.
  rewrite !String.eqb_eq, !includes_spec.
  split.
  - intros [Hs Hq]. split.
    + intros Hall. destruct Hs; [contradiction | assumption].
    + intros Hne. destruct Hq as [[He | Ht] | Hd]; [contradiction | auto | auto].
  - intros [Hs Hq]. split.
    + destruct (string_dec (f_status spec) "all"); auto.
    + destruct (string_dec (builtin_trim (f_search spec)) EmptyString); auto.
      destruct (Hq n); auto.
Qed.

(** C2, as the code has it.  Whatever [toLowerCase] and [trim] of the
    platform are, [applyFilters] keeps exactly the records that pass the
    status criterion and the search criterion together, each as often as
    it occurs and in the order of the input.  The search criterion is
    that the search text, lower-cased and trimmed, occurs in the title or
    in the description after that field has been lower-cased as a whole.
    The result is the input filtered by the conjunction of the two
    criteria, a record belongs to it if and only if it belongs to the
    input and passes both, and the result is a subsequence of the input;
    the engine of the panel is this one at its builtins. *)
Theorem applyFilters_keeps (B : StringBuiltins) (taskList : list Task) (spec : FilterSpec) :
  (forall t, kept_b B spec t = true <-> kept B spec t) /\
  applyFilters_with B taskList spec = List.filter (kept_b B spec) taskList /\
  (forall t, In t (applyFilters_with B taskList spec) <->
             In t taskList /\ kept B spec t) /\
  sublist (applyFilters_with B taskList spec) taskList /\
  applyFilters_result taskList spec = applyFilters_with ascii_builtins taskList spec.
Proof.
  pose proof (kept_b_spec B spec) as Hspec.
  rewrite applyFilters_with_filter.
  split; [exact Hspec|]. split; [reflexivity|].
  split; [|split; [apply filter_sublist | reflexivity]].
  intros t. rewrite List.filter_In, Hspec. reflexivity.
Qed.

(** C2, the statement of the specification fails where the lower case of
    a letter depends on its place.  The record titled with a capital alpha
    and a capital sigma passes the criteria as worded for the search text
    capital sigma: the sigma of the title and the search text have the
    same lower case.  The code lower-cases the whole title, whose sigma
    is final and becomes the final sigma, looks for the sigma in it, and
    drops the record. *)
Lemma final_sigma_is_dropped :
  let t := mkTask "1" ALPHA_SIGMA EmptyString "incomplete" None None None None in
  let spec := mkFilters "all" SIGMA in
  @builtin_toLowerCase greek_builtins (title t) = alpha_final_sigma /\
  @builtin_trim greek_builtins (@builtin_toLowerCase greek_builtins (f_search spec))
    = sigma /\
  retained_as_worded greek_builtins spec t /\
  applyFilters_with greek_builtins [t] spec = [].
Proof.
  cbv zeta. split; [reflexivity|]. split; [reflexivity|]. split; [|reflexivity].
  split; [intros H; exfalso; apply H; reflexivity|].
  intros _. left.
  exists (String "206" (String "145" EmptyString)), SIGMA, EmptyString.
  split; reflexivity.
Qed.

(** C3.  Filtering a filtered collection again with the same
    specification changes nothing. *)
Theorem applyFilters_idempotent (C : list Task) (S : FilterSpec) :
  applyFilters_result (applyFilters_result C S) S = applyFilters_result C S.
Proof. rewrite !applyFilters_result_filter. apply filter_idem. Qed.

(** The neutral specification keeps everything. *)
Lemma applyFilters_neutral (C : list Task) :
  applyFilters_result C (mkFilters "all" EmptyString) = C.
Proof. reflexivity. Qed.

End FilterFacts.

(** ** The task panel *)

Section TaskListFacts.

Import TaskList.

Context {J : JSON (list Task)}.

(** The laws of the platform's JSON that the statements below rely on:
    parsing what was printed gives the value back, the text [[]] is the
    empty array, and the empty text is not JSON. *)
Hypothesis parse_stringify : forall l : list Task, JSON_parse (JSON_stringify l) = Some l.
Hypothesis parse_empty_array : JSON_parse "[]" = Some ([] : list Task).
Hypothesis parse_empty_text : JSON_parse EmptyString = (None : option (list Task)).

Lemma stringify_truthy (l : list Task) : truthy (JSON_stringify l) = true.
Proof.
  apply truthy_spec. intros E.
  pose proof (parse_stringify l) as Hl. rewrite E, parse_empty_text in Hl.
  discriminate.
Qed.

(** What the registered listener does with a [tasks] event whose text
    parses: both cells are replaced, the view by the collection filtered
    with the specification of the first render, which keeps everything.
    Nothing is stored, dispatched or logged. *)
Lemma mounted_listener_parsed (e : StorageEvent) (l : list Task) (w : World) (st : State) :
  key e = Some "tasks" ->
  JSON_parse (or_default (newValue e) "[]") = Some l ->
  mounted_listener e w st =
    (Normal tt, w,
     mkState l l (loading st) (error st) (editingTask st) (editForm st) (filters st)).
Proof.
  intros Hk Hp. unfold mounted_listener, handleStorageChange.
  rewrite Hk. simpl strict_eq. cbv iota.
  unfold try_catch, bind, lift_option. rewrite Hp. reflexivity.
Qed.

(** A text that does not parse leaves the cells alone; the failure is
    logged to the console. *)
Lemma mounted_listener_unparsed (e : StorageEvent) (w : World) (st : State) :
  key e = Some "tasks" ->
  JSON_parse (or_default (newValue e) "[]") = (None : option (list Task)) ->
  state_of (mounted_listener e w st) = st /\
  localStorage (world_of (mounted_listener e w st)) = localStorage w /\
  dispatched (world_of (mounted_listener e w st)) = dispatched w.
Proof.
  intros Hk Hp. unfold mounted_listener, handleStorageChange.
  rewrite Hk. simpl strict_eq. cbv iota.
  unfold try_catch, bind, lift_option. rewrite Hp. simpl. auto.
Qed.

(** An event for another key is ignored. *)
Lemma mounted_listener_other_key (e : StorageEvent) (w : World) (st : State) :
  strict_eq (key e) "tasks" = false ->
  mounted_listener e w st = (Normal tt, w, st).
Proof.
  intros Hk. unfold mounted_listener, handleStorageChange. now rewrite Hk.
Qed.

(** C10.  A [tasks] event whose [newValue] is [null] is handled as the
    text [[]]: the listener completes normally, the collection and the
    filtered view become empty, the error cell is not touched and
    nothing is logged. *)
Theorem storage_event_null_newValue (e : StorageEvent) (w : World) (st : State) :
  key e = Some "tasks" ->
  newValue e = None ->
  outcome_of (mounted_listener e w st) = Normal tt /\
  tasks (state_of (mounted_listener e w st)) = [] /\
  filteredTasks (state_of (mounted_listener e w st)) = [] /\
  error (state_of (mounted_listener e w st)) = error st /\
  world_of (mounted_listener e w st) = w.
Proof.
  intros Hk Hn.
  rewrite (mounted_listener_parsed e [] w st Hk); [simpl; auto|].
  rewrite Hn. exact parse_empty_array.
Qed.

(** *** Toggle *)

(** The record that [handleStatusChange] puts in the place of [task]. *)
Let toggle (taskId : string) (now : instant) : Task -> Task :=
  fun task =>
    if String.eqb (_id task) taskId
    then mkTask (_id task) (title task) (description task)
                (if String.eqb (status task) "complete"
                 then "incomplete" else "complete")
                (priority task) (dueDate task) (createdAt task)
                (Some now)
    else task.

(** The run of [handleStatusChange]: the projection and, through the
    component's own listener, the view receive the new collection; it is
    stored and dispatched. *)
Lemma fire_handleStatusChange (taskId : string) (w : World) (st : State) :
  let updatedTasks := List.map (toggle taskId (clock w)) (tasks st) in
  fire (fun render => handleStatusChange render taskId) w st =
    (Normal tt,
     mkWorld (<["tasks" := JSON_stringify updatedTasks]> (localStorage w)) (clock w)
             (mkEvent (Some "tasks") (Some (JSON_stringify updatedTasks)) :: dispatched w)
             (alerts w) (console w),
     mkState updatedTasks updatedTasks (loading st) (error st) (editingTask st)
             (editForm st) (filters st)).
Proof.
  intros updatedTasks. unfold fire, handleStatusChange, window_dispatchEvent.
  unfold bind at 1. unfold Date_now. fold updatedTasks.
  unfold bind, setTasks, applyFilters, setFilteredTasks, modify,
    localStorage_setItem, record_event. simpl.
  erewrite mounted_listener_parsed; [reflexivity | reflexivity |].
  simpl. rewrite stringify_truthy. apply parse_stringify.
Qed.

Lemma toggle_toggled (taskId : string) (now : instant) (l : list Task) :
  Forall2 (toggled taskId now) l (List.map (toggle taskId now) l).
Proof.
  induction l as [|t l IH]; simpl; constructor; [|exact IH].
  unfold toggled, toggle. destruct (String.eqb_spec (_id t) taskId) as [Heq|Hne].
  - rewrite decide_True by exact Heq. simpl. unfold flipped.
    repeat split; try reflexivity.
    + intros ->. reflexivity.
    + intros ->. reflexivity.
  - now rewrite decide_False by exact Hne.
Qed.

Lemma toggle_unknown (taskId : string) (now : instant) (l : list Task) :
  (forall t, In t l -> _id t <> taskId) ->
  List.map (toggle taskId now) l = l.
Proof.
  induction l as [|t l IH]; simpl; intros Hl; [reflexivity|].
  unfold toggle at 1. destruct (String.eqb_spec (_id t) taskId) as [Heq|Hne].
  - exfalso. apply (Hl t); auto.
  - f_equal. apply IH. intros t' Ht'. apply Hl. auto.
Qed.

Lemma toggled_later (taskId : string) (now : instant) (t t' : Task) :
  toggled taskId now t t' -> _id t = taskId ->
  strictly_later (updatedAt t) (Some now) ->
  strictly_later (updatedAt t) (updatedAt t').
Proof.
  unfold toggled. intros Ht Hid Hlater.
  rewrite decide_True in Ht by exact Hid.
  destruct Ht as (_ & -> & _). exact Hlater.
Qed.

(** C4, as the code has it.  [handleStatusChange taskId] puts in the
    place of every record with that identifier a record with the status
    flipped, [updatedAt] set to the clock reading of the call and the
    other fields kept, and keeps every other record; the new time stamp
    is strictly later than the old one whenever the clock reads later
    than the old one; the collection is stored under [tasks]; and when no
    record has the identifier the collection, and so its JSON text, is
    the one before. *)
Theorem handleStatusChange_toggles (taskId : string) (w : World) (st : State) :
  let r := fire (fun render => handleStatusChange render taskId) w st in
  Forall2 (toggled taskId (clock w)) (tasks st) (tasks (state_of r)) /\
  Forall2 (fun t t' => _id t = taskId ->
                       strictly_later (updatedAt t) (Some (clock w)) ->
                       strictly_later (updatedAt t) (updatedAt t'))
          (tasks st) (tasks (state_of r)) /\
  localStorage (world_of r) !! "tasks" = Some (JSON_stringify (tasks (state_of r))) /\
  ((forall t, In t (tasks st) -> _id t <> taskId) ->
   tasks (state_of r) = tasks st /\
   JSON_stringify (tasks (state_of r)) = JSON_stringify (tasks st)).
Proof.
  intros r. subst r. rewrite fire_handleStatusChange. simpl.
  pose proof (toggle_toggled taskId (clock w) (tasks st)) as Hall.
  split; [exact Hall|]. split; [|split].
  - eapply Forall2_impl; [exact Hall|]. intros t t' Ht Hid Hl.
    eapply toggled_later; eassumption.
  - apply lookup_insert_eq.
  - intros Hun. rewrite (toggle_unknown _ _ _ Hun). auto.
Qed.

(** *** Save *)

(** C6.  With a title that is empty once trimmed, [saveTask] stops at
    the validation: no cell changes (so the collection, the view and
    the editing marker are the ones before), nothing is stored and
    nothing is dispatched; the only effect is the alert. *)
Theorem saveTask_empty_title (taskId : string) (w : World) (st : State) :
  trim (form_title (editForm st)) = EmptyString ->
  let r := fire (fun render => saveTask render taskId) w st in
  outcome_of r = Normal tt /\
  state_of r = st /\
  editingTask (state_of r) = editingTask st /\
  localStorage (world_of r) = localStorage w /\
  dispatched (world_of r) = dispatched w /\
  alerts (world_of r) = "Task title cannot be empty" :: alerts w.
Proof.
  intros Hempty r. subst r. unfold fire, saveTask. rewrite Hempty. simpl.
  repeat split.
Qed.

(** *** Load *)

(** The run of the seeding branch. *)
Lemma run_loadTasks_seed (w : World) (st : State) :
  loadTasks_seed initialState w st =
    (Normal tt,
     mkWorld (<["tasks" := JSON_stringify (mockTasks (clock w))]> (localStorage w))
             (clock w) (dispatched w) (alerts w) (console w),
     mkState (mockTasks (clock w)) (mockTasks (clock w)) (loading st) (error st)
             (editingTask st) (editForm st) (filters st)).
Proof. reflexivity. Qed.

(** [load] with no value under [tasks]. *)
Lemma load_absent (w : World) (st : State) :
  localStorage w !! "tasks" = None ->
  load w st =
    (Normal tt,
     mkWorld (<["tasks" := JSON_stringify (mockTasks (clock w))]> (localStorage w))
             (clock w) (dispatched w) (alerts w) (console w),
     mkState (mockTasks (clock w)) (mockTasks (clock w)) false None
             (editingTask st) (editForm st) (filters st)).
Proof.
  intros Habs.
  unfold load, loadTasks, try_finally, try_catch, bind, localStorage_getItem.
  cbv beta. rewrite Habs. reflexivity.
Qed.


(** C8, as the code has it.  With a value under [tasks] that is not the
    empty string and does not parse, [load] completes normally in the
    error state with the message for the user: the collection and the
    view are untouched, and nothing is stored or dispatched. *)
Theorem load_unparseable_error (w : World) (st : State) (stored : string) :
  localStorage w !! "tasks" = Some stored ->
  stored <> EmptyString ->
  JSON_parse stored = (None : option (list Task)) ->
  let r := load w st in
  outcome_of r = Normal tt /\
  error (state_of r) = Some "Failed to load tasks. Please try again later." /\
  loading (state_of r) = false /\
  tasks (state_of r) = tasks st /\
  filteredTasks (state_of r) = filteredTasks st /\
  localStorage (world_of r) = localStorage w /\
  dispatched (world_of r) = dispatched w.
Proof.
  intros Hst Hne Hp r. subst r. apply truthy_spec in Hne.
  unfold load, loadTasks, try_finally, try_catch, bind, localStorage_getItem,
    lift_option.
  cbv beta. rewrite Hst, Hne, Hp. simpl. repeat split.
Qed.

(** The empty string under [tasks] takes the seeding branch: it fails
    the test [if (storedTasks)] before any parsing. *)
Lemma load_empty_string (w : World) (st : State) :
  localStorage w !! "tasks" = Some EmptyString ->
  load w st =
    (Normal tt,
     mkWorld (<["tasks" := JSON_stringify (mockTasks (clock w))]> (localStorage w))
             (clock w) (dispatched w) (alerts w) (console w),
     mkState (mockTasks (clock w)) (mockTasks (clock w)) false None
             (editingTask st) (editForm st) (filters st)).
Proof.
  intros Hst.
  unfold load, loadTasks, try_finally, try_catch, bind, localStorage_getItem.
  cbv beta. rewrite Hst. reflexivity.
Qed.

End TaskListFacts.

(** ** The activity-log panel *)

Section SortFacts.

Context {A : Type} (compareFn : A -> A -> Z).

Lemma sort_insert_perm (x : A) (l : list A) :
  Permutation (x :: l) (sort_insert compareFn x l).
Proof.
  induction l as [|y l IH]; simpl; [reflexivity|].
  destruct (compareFn x y <=? 0); [reflexivity|].
  rewrite perm_swap. now apply perm_skip.
Qed.

(** Sorting keeps the records, each as often as it occurs. *)
Lemma Array_sort_perm (l : list A) : Permutation l (Array_sort compareFn l).
Proof.
  induction l as [|x l IH]; simpl; [reflexivity|].
  rewrite <- sort_insert_perm. now apply perm_skip.
Qed.

End SortFacts.

Section RecentUsersFacts.

Import RecentUsers.

Context {J : JSON (list UserLog)}.

Let later_or_same (a b : UserLog) : Prop := loginTime b <= loginTime a.

Lemma sort_insert_sorted (x : UserLog) (l : list UserLog) :
  Sorted later_or_same l -> Sorted later_or_same (sort_insert byLoginTime x l).
Proof.
  induction 1 as [|y l Hs IH Hhd]; simpl.
  - repeat constructor.
  - unfold byLoginTime at 1. destruct (Z.leb_spec (loginTime y - loginTime x) 0) as [Hle|Hgt].
    + constructor; [constructor; assumption|]. constructor. unfold later_or_same. lia.
    + constructor; [exact IH|].
      destruct Hhd as [|z l Hz]; simpl.
      * constructor. unfold later_or_same. lia.
      * unfold byLoginTime. destruct (loginTime z - loginTime x <=? 0);
          constructor; unfold later_or_same in *; lia.
Qed.

(** The comparator of [loadUserLogs] sorts by [loginTime], descending. *)
Lemma Array_sort_newest_first (l : list UserLog) :
  newest_first (Array_sort byLoginTime l).
Proof.
  apply Sorted_StronglySorted.
  - intros a b c Hab Hbc. lia.
  - induction l as [|x l IH]; simpl; [constructor|].
    now apply sort_insert_sorted.
Qed.

(** The seed literal is written most recent first. *)
Lemma mockLogs_newest_first (now : instant) : newest_first (mockLogs now).
Proof.
  unfold newest_first, mockLogs.
  repeat (constructor; simpl; try lia).
Qed.

(** The cases of [load]: a usable stored value is parsed and sorted; no
    value, the empty string, [null] and [[]] are replaced by the seed; a
    value that does not parse leaves the cells of the first render. *)
Lemma load_cases (w : World) :
  let r := load w initialState in
  (exists stored parsed,
      localStorage w !! "userLogs" = Some stored /\
      JSON_parse stored = Some parsed /\
      userLogs (state_of r) = Array_sort byLoginTime parsed /\
      world_of r = w) \/
  (userLogs (state_of r) = mockLogs (clock w) /\
   localStorage (world_of r) !! "userLogs" = Some (JSON_stringify (mockLogs (clock w)))) \/
  (userLogs (state_of r) = [] /\ localStorage (world_of r) = localStorage w).
Proof.
  intros r. subst r.
  unfold load, loadUserLogs, try_catch, bind, localStorage_getItem, lift_option.
  cbv beta.
  destruct (localStorage w !! "userLogs") as [stored|] eqn:Hst.
  - destruct (truthy stored && negb (stored =? "null")%string
              && negb (stored =? "[]")%string)%bool eqn:Hc.
    + destruct (JSON_parse stored) as [parsed|] eqn:Hp.
      * left. exists stored, parsed. simpl. auto.
      * right. right. simpl. auto.
    + right. left. simpl. split; [reflexivity|]. apply lookup_insert_eq.
  - right. left. simpl. split; [reflexivity|]. apply lookup_insert_eq.
Qed.

(** C9.  When [load] has completed, for every content of the store, the
    panel has left the loading state and the projection is sorted by
    [loginTime], most recent first.  When a stored collection was parsed
    (a value under [userLogs] other than the empty string, [null] and
    [[]]), the projection is that collection sorted by the comparator: a
    permutation of it, and nothing is written.  When the store had no
    value or one of those three, the projection is the seed literal, which
    is written most recent first, and its JSON text is stored. *)
Theorem load_newest_first (w : World) :
  let r := load w initialState in
  outcome_of r = Normal tt /\
  newest_first (userLogs (state_of r)) /\
  loading (state_of r) = false /\
  (forall stored parsed,
      localStorage w !! "userLogs" = Some stored ->
      stored <> EmptyString -> stored <> "null" -> stored <> "[]" ->
      JSON_parse stored = Some parsed ->
      userLogs (state_of r) = Array_sort byLoginTime parsed /\
      Permutation parsed (userLogs (state_of r)) /\
      world_of r = w) /\
  (localStorage w !! "userLogs" = None \/
   localStorage w !! "userLogs" = Some EmptyString \/
   localStorage w !! "userLogs" = Some "null" \/
   localStorage w !! "userLogs" = Some "[]" ->
   userLogs (state_of r) = mockLogs (clock w) /\
   List.length (userLogs (state_of r)) = 3%nat /\
   localStorage (world_of r) !! "userLogs" = Some (JSON_stringify (mockLogs (clock w)))).
Proof.
  intros r. pose proof (load_cases w) as Hc. fold r in Hc. subst r.
  split; [|split; [|split; [|split]]].
  - unfold load, loadUserLogs, try_catch, bind, localStorage_getItem, lift_option.
    cbv beta.
    destruct (localStorage w !! "userLogs") as [stored|]; [|reflexivity].
    destruct (_ && _)%bool; [|reflexivity].
    destruct (JSON_parse stored); reflexivity.
  - destruct Hc as [(stored & parsed & _ & _ & -> & _) | [[-> _] | [-> _]]].
    + apply Array_sort_newest_first.
    + apply mockLogs_newest_first.
    + constructor.
  - unfold load, loadUserLogs, try_catch, bind, localStorage_getItem, lift_option.
    cbv beta.
    destruct (localStorage w !! "userLogs") as [stored|]; [|reflexivity].
    destruct (_ && _)%bool; [|reflexivity].
    destruct (JSON_parse stored); reflexivity.
  - intros stored parsed Hst H1 H2 H3 Hp.
    unfold load, loadUserLogs, try_catch, bind, localStorage_getItem, lift_option.
    cbv beta. rewrite Hst.
    apply truthy_spec in H1. apply String.eqb_neq in H2, H3.
    rewrite H1, H2, H3, Hp. simpl.
    split; [reflexivity|]. split; [apply Array_sort_perm | reflexivity].
  - intros Hs.
    unfold load, loadUserLogs, try_catch, bind, localStorage_getItem, lift_option.
    cbv beta.
    destruct Hs as [Hs | [Hs | [Hs | Hs]]]; rewrite Hs; simpl;
      rewrite lookup_insert_eq; repeat split.
Qed.

(** *** Delete *)

(** The records that stay when [logId] is deleted. *)
Let without (logId : string) (l : list UserLog) : list UserLog :=
  List.filter (fun log => negb (String.eqb (log_id log) logId)) l.

Lemma strict_eq_spec (v : option string) (k : string) :
  strict_eq v k = true <-> v = Some k.
Proof.
  destruct v as [s|]; simpl; [|split; discriminate].
  rewrite String.eqb_eq. split; congruence.
Qed.

(** A call for an identifier that is not the pending one moves the
    marker and does nothing else. *)
Lemma handleDelete_marks (logId : string) (w : World) (st : State) :
  deleteConfirm st <> Some logId ->
  fire (fun render => handleDelete render logId) w st =
    (Normal tt, w, mkState (userLogs st) (loading st) (Some logId)).
Proof.
  intros Hne. unfold fire, handleDelete.
  destruct (strict_eq (deleteConfirm st) logId) eqn:E; [|reflexivity].
  apply strict_eq_spec in E. contradiction.
Qed.

(** A call for the pending identifier removes its records, stores the
    rest and clears the marker. *)
Lemma handleDelete_confirms (logId : string) (w : World) (st : State) :
  deleteConfirm st = Some logId ->
  fire (fun render => handleDelete render logId) w st =
    (Normal tt,
     mkWorld (<["userLogs" := JSON_stringify (without logId (userLogs st))]> (localStorage w))
             (clock w) (dispatched w) (alerts w) (console w),
     mkState (without logId (userLogs st)) (loading st) None).
Proof.
  intros Hp. apply strict_eq_spec in Hp. unfold fire, handleDelete.
  rewrite Hp. reflexivity.
Qed.

Lemma without_In (logId : string) (l : list UserLog) (x : UserLog) :
  In x (without logId l) <-> In x l /\ log_id x <> logId.
Proof.
  unfold without. rewrite List.filter_In, negb_true_iff, String.eqb_neq. reflexivity.
Qed.

(** C5.  Starting with [a] not pending and [b] another identifier:
    [handleDelete a] only sets the marker to [a]; [handleDelete b] after
    it only moves the marker to [b], so that the records, those with
    identifier [a] among them, and the browser are as at the start; a
    further [handleDelete b] removes exactly the records with identifier
    [b], stores the reduced collection under [userLogs] and clears the
    marker; and so do two calls of [handleDelete a] in a row for [a]. *)
Theorem handleDelete_two_phase (a b : string) (w : World) (st : State) :
  deleteConfirm st <> Some a ->
  a <> b ->
  let delete := fun logId r => fire (fun render => handleDelete render logId)
                                    (world_of r) (state_of r) in
  let r0 : completion unit * World * State := (Normal tt, w, st) in
  let r1 := delete a r0 in
  let r2 := delete b r1 in
  let r3 := delete b r2 in
  let r2' := delete a r1 in
  (userLogs (state_of r1) = userLogs st /\ world_of r1 = w /\
   deleteConfirm (state_of r1) = Some a) /\
  (userLogs (state_of r2) = userLogs st /\ world_of r2 = w /\
   deleteConfirm (state_of r2) = Some b) /\
  (userLogs (state_of r3)
     = List.filter (fun log => negb (String.eqb (log_id log) b)) (userLogs st) /\
   (forall x, In x (userLogs (state_of r3)) <-> In x (userLogs st) /\ log_id x <> b) /\
   sublist (userLogs (state_of r3)) (userLogs st) /\
   localStorage (world_of r3) !! "userLogs" =
     Some (JSON_stringify (userLogs (state_of r3))) /\
   deleteConfirm (state_of r3) = None) /\
  (userLogs (state_of r2')
     = List.filter (fun log => negb (String.eqb (log_id log) a)) (userLogs st) /\
   (forall x, In x (userLogs (state_of r2')) <-> In x (userLogs st) /\ log_id x <> a) /\
   sublist (userLogs (state_of r2')) (userLogs st) /\
   localStorage (world_of r2') !! "userLogs" =
     Some (JSON_stringify (userLogs (state_of r2'))) /\
   deleteConfirm (state_of r2') = None).
Proof.
  intros Hpend Hab delete r0 r1 r2 r3 r2'.
  assert (H1 : r1 = (Normal tt, w, mkState (userLogs st) (loading st) (Some a))).
  { apply handleDelete_marks. exact Hpend. }
  assert (H2 : r2 = (Normal tt, w, mkState (userLogs st) (loading st) (Some b))).
  { subst r2. rewrite H1. unfold delete. simpl world_of. simpl state_of.
    rewrite handleDelete_marks; [reflexivity | simpl; congruence]. }
  assert (H3 : state_of r3 = mkState (without b (userLogs st)) (loading st) None /\
               localStorage (world_of r3) !! "userLogs" =
                 Some (JSON_stringify (without b (userLogs st)))).
  { subst r3. rewrite H2. unfold delete. simpl world_of. simpl state_of.
    rewrite handleDelete_confirms by reflexivity. simpl.
    split; [reflexivity | apply lookup_insert_eq]. }
  assert (H2' : state_of r2' = mkState (without a (userLogs st)) (loading st) None /\
                localStorage (world_of r2') !! "userLogs" =
                  Some (JSON_stringify (without a (userLogs st)))).
  { subst r2'. rewrite H1. unfold delete. simpl world_of. simpl state_of.
    rewrite handleDelete_confirms by reflexivity. simpl.
    split; [reflexivity | apply lookup_insert_eq]. }
  destruct H3 as [H3 H3s]. destruct H2' as [H2' H2's].
  rewrite H1, H2, H3, H2'. simpl. rewrite H3s, H2's.
  split; [auto|]. split; [auto|]. split.
  - split; [reflexivity|].
    split; [intros x; apply without_In|]. split; [apply filter_sublist|]. auto.
  - split; [reflexivity|].
    split; [intros x; apply without_In|]. split; [apply filter_sublist|]. auto.
Qed.

End RecentUsersFacts.

(** ** The reference codec *)

Module CodecFacts.

Import Codec.

Lemma strip_put_lit (p k : string) : strip p (put_lit p k) = Some k.
Proof.
  unfold put_lit. induction p as [|a p IH]; simpl; [reflexivity|].
  now rewrite Ascii.eqb_refl.
Qed.

Lemma field_put_lit {A} (label : string) (read : reader A) (k : string) :
  field label read (put_lit label k) = read k.
Proof. unfold field, andThen, read_lit. now rewrite strip_put_lit. Qed.

Lemma read_lit_put_lit (p k : string) : read_lit p (put_lit p k) = Some (tt, k).
Proof. unfold read_lit. now rewrite strip_put_lit. Qed.

Lemma read_body_put_body (s k : string) : read_body (put_body s k) = Some (s, k).
Proof.
  induction s as [|c s IH]; simpl.
  - reflexivity.
  - destruct (needs_escape c) eqn:E.
    + simpl. rewrite E, IH. reflexivity.
    + unfold needs_escape in E. apply orb_false_elim in E as [Eq Eb].
      simpl. rewrite Eq, Eb, IH. reflexivity.
Qed.

Lemma read_string_put_string (s k : string) :
  read_string (put_string s k) = Some (s, k).
Proof. unfold read_string, put_string. simpl. apply read_body_put_body. Qed.

Lemma read_instant_put_instant (z : instant) (k : string) :
  read_instant (put_instant z k) = Some (z, k).
Proof.
  unfold read_instant, put_instant.
  now rewrite read_string_put_string, NilEmpty.isi, DecimalZ.of_to.
Qed.

(** A value reads back behind [read_option] when its text does not start
    like [null]. *)
Lemma read_option_put_option {A} (put : A -> string -> string) (read : reader A) :
  (forall a k, read (put a k) = Some (a, k)) ->
  (forall a k, strip "null" (put a k) = None) ->
  forall o k, read_option read (put_option put o k) = Some (o, k).
Proof.
  intros Hread Hnull [a|] k; unfold read_option, put_option.
  - now rewrite Hnull, Hread.
  - now rewrite strip_put_lit.
Qed.

Lemma read_opt_string (o : option string) (k : string) :
  read_option read_string (put_option put_string o k) = Some (o, k).
Proof.
  apply read_option_put_option; [apply read_string_put_string | reflexivity].
Qed.

Lemma read_opt_instant (o : option instant) (k : string) :
  read_option read_instant (put_option put_instant o k) = Some (o, k).
Proof.
  apply read_option_put_option; [apply read_instant_put_instant | reflexivity].
Qed.

Ltac read_fields :=
  repeat (unfold andThen at 1;
          rewrite ?field_put_lit, ?read_lit_put_lit,
            ?read_string_put_string, ?read_instant_put_instant,
            ?read_opt_string, ?read_opt_instant).

Lemma read_task_put_task (t : Task) (k : string) :
  read_task (put_task t k) = Some (t, k).
Proof. destruct t. unfold read_task, put_task. simpl _id. read_fields. reflexivity. Qed.

Lemma read_log_put_log (l : UserLog) (k : string) :
  read_log (put_log l k) = Some (l, k).
Proof. destruct l. unfold read_log, put_log. read_fields. reflexivity. Qed.

(** *** Arrays *)

Lemma put_lit_extends (p k : string) :
  (String.length k <= String.length (put_lit p k))%nat.
Proof. unfold put_lit. induction p; simpl; lia. Qed.

Lemma put_string_extends : extends put_string.
Proof.
  intros s k. unfold put_string. simpl.
  induction s as [|c s IH]; simpl; [lia|].
  destruct (needs_escape c); simpl; lia.
Qed.

Lemma put_instant_extends : extends put_instant.
Proof. intros z k. apply put_string_extends. Qed.

Lemma put_option_extends {A} (put : A -> string -> string) :
  extends put -> extends (put_option put).
Proof. intros H [a|] k; unfold put_option; [apply H | apply put_lit_extends]. Qed.

Ltac extends_chain :=
  repeat first
    [ apply Nat.le_refl
    | (etransitivity; [| first [ apply put_lit_extends
                               | apply put_string_extends
                               | apply put_instant_extends
                               | apply (put_option_extends put_string put_string_extends)
                               | apply (put_option_extends put_instant put_instant_extends) ] ]) ].

Lemma put_task_extends : extends put_task.
Proof. intros t k. unfold put_task. extends_chain. Qed.

Lemma put_log_extends : extends put_log.
Proof. intros l k. unfold put_log. extends_chain. Qed.

Section Arrays.

Context {A : Type} (put : A -> string -> string) (read : reader A).
Hypothesis read_put : forall a k, read (put a k) = Some (a, k).
Hypothesis put_extends : extends put.
Hypothesis put_brace : forall a k, exists r, put a k = String "{" r.

Lemma put_items_length (x : A) (l : list A) (k : string) :
  (List.length l < String.length (put_items put x l k))%nat.
Proof.
  revert x; induction l as [|y l IH]; intros x; simpl.
  - pose proof (put_extends x (String "]" k)) as H. simpl in H. lia.
  - pose proof (put_extends x (String "," (put_items put y l k))) as H.
    simpl in H. specialize (IH y). lia.
Qed.

Lemma read_items_put_items (fuel : nat) (x : A) (l : list A) (k : string) :
  (List.length l < fuel)%nat ->
  read_items read fuel (put_items put x l k) = Some (x :: l, k).
Proof.
  revert x l; induction fuel as [|fuel IH]; intros x l Hf; [lia|].
  destruct l as [|y l]; simpl.
  - rewrite read_put. reflexivity.
  - rewrite read_put. simpl. rewrite IH by (simpl in Hf; lia). reflexivity.
Qed.

Lemma read_array_put_array (l : list A) (k : string) :
  read_array read (put_array put l k) = Some (l, k).
Proof.
  destruct l as [|x l]; simpl; [reflexivity|].
  assert (Hb : exists r, put_items put x l k = String "{" r).
  { destruct l; simpl; apply put_brace. }
  destruct Hb as [r Hr].
  pose proof (put_items_length x l k) as Hlen.
  pose proof (read_items_put_items (String.length (put_items put x l k)) x l k Hlen) as Hread.
  rewrite Hr in *. simpl. exact Hread.
Qed.

Lemma parse_stringify (l : list A) : parse read (stringify put l) = Some l.
Proof. unfold parse, stringify. now rewrite read_array_put_array. Qed.

End Arrays.

(** The reference codec satisfies the three laws, for tasks and for
    logs. *)
Lemma tasks_parse_stringify (l : list Task) :
  @JSON_parse _ Codec.tasks (@JSON_stringify _ Codec.tasks l) = Some l.
Proof.
  apply parse_stringify.
  - apply read_task_put_task.
  - apply put_task_extends.
  - intros t k. eexists. reflexivity.
Qed.

Lemma logs_parse_stringify (l : list UserLog) :
  @JSON_parse _ Codec.logs (@JSON_stringify _ Codec.logs l) = Some l.
Proof.
  apply parse_stringify.
  - apply read_log_put_log.
  - apply put_log_extends.
  - intros t k. eexists. reflexivity.
Qed.

Lemma tasks_parse_empty_array : @JSON_parse _ Codec.tasks "[]" = Some [].
Proof. reflexivity. Qed.

Lemma tasks_parse_empty_text : @JSON_parse _ Codec.tasks EmptyString = None.
Proof. reflexivity. Qed.

End CodecFacts.

(** ** Runs on concrete data *)

Section Scenarios.

Import Codec CodecFacts Sample.

(** C1.  Panel A shows the filter [complete]; panel B toggles task [2],
    the only complete one, and dispatches the new collection.  Panel A
    replaces its projection by that collection and dispatches nothing,
    but the view it computes is the whole collection of four records:
    the listener filters with the specification of the first render,
    [all] and no search text, while the specification the panel holds,
    [complete], keeps no record of the new collection. *)
Theorem storage_event_filters_with_first_render :
  head (dispatched (world_of panelB_toggled)) = Some broadcast /\
  JSON_parse (or_default (newValue broadcast) "[]")
    = Some (TaskList.tasks (state_of panelB_toggled)) /\
  TaskList.filters (state_of panelA_filtered) = mkFilters "complete" EmptyString /\
  TaskList.filters (state_of panelA_synced) = mkFilters "complete" EmptyString /\
  TaskList.tasks (state_of panelA_synced) = TaskList.tasks (state_of panelB_toggled) /\
  dispatched (world_of panelA_synced) = dispatched (world_of panelB_toggled) /\
  applyFilters_result (TaskList.tasks (state_of panelA_synced))
                      (TaskList.filters (state_of panelA_synced)) = [] /\
  TaskList.filteredTasks (state_of panelA_synced)
    = TaskList.tasks (state_of panelA_synced) /\
  List.length (TaskList.filteredTasks (state_of panelA_synced)) = 4%nat.
Proof. vm_compute. repeat split. Qed.

(** The same loss inside one panel: with the filter [complete] chosen,
    a click on the toggle of task [1] dispatches to the panel's own
    listener, and the view becomes the whole collection. *)
Lemma toggle_resets_own_view :
  let r := fire (fun render => TaskList.handleStatusChange render "1")
                (world_of panelA_filtered) (state_of panelA_filtered) in
  List.length (TaskList.filteredTasks (state_of panelA_filtered)) = 1%nat /\
  TaskList.filters (state_of r) = mkFilters "complete" EmptyString /\
  List.length (applyFilters_result (TaskList.tasks (state_of r))
                                   (TaskList.filters (state_of r))) = 2%nat /\
  List.length (TaskList.filteredTasks (state_of r)) = 4%nat.
Proof. vm_compute. repeat split. Qed.

(** C4, the statement of the specification fails: a second toggle of
    task [1] at the clock reading of the first flips the status again
    and leaves [updatedAt] at the same instant, not a later one. *)
Lemma toggle_twice_same_reading :
  exists t t',
    TaskList.tasks (state_of toggled_once) !! 0%nat = Some t /\
    TaskList.tasks (state_of toggled_twice) !! 0%nat = Some t' /\
    _id t = "1" /\ _id t' = "1" /\
    status t = "complete" /\ status t' = "incomplete" /\
    updatedAt t = Some T0 /\ updatedAt t' = Some T0 /\
    ~ strictly_later (updatedAt t) (updatedAt t').
Proof.
  eexists. eexists.
  split; [vm_compute; reflexivity|]. split; [vm_compute; reflexivity|].
  simpl. repeat split. unfold T0. lia.
Qed.

Lemma handleStatusChange_toggles_witness :
  Forall2 (toggled "2" T0)
          (TaskList.tasks (state_of panelB_loaded))
          (TaskList.tasks (state_of panelB_toggled)).
Proof.
  exact (proj1 (handleStatusChange_toggles
                  tasks_parse_stringify tasks_parse_empty_text
                  "2" (world_of panelB_loaded) (state_of panelB_loaded))).
Defined.

Lemma handleDelete_two_phase_witness :
  let delete := fun logId r =>
                  fire (fun render => RecentUsers.handleDelete render logId)
                       (world_of r) (state_of r) in
  RecentUsers.deleteConfirm (state_of logs_loaded) <> Some "2" /\
  "2" <> "3" /\
  RecentUsers.userLogs (state_of (delete "3" (delete "2" logs_loaded)))
    = RecentUsers.userLogs (state_of logs_loaded).
Proof.
  intros delete.
  assert (H1 : RecentUsers.deleteConfirm (state_of logs_loaded) <> Some "2")
    by (vm_compute; discriminate).
  assert (H2 : "2" <> "3") by discriminate.
  split; [exact H1|]. split; [exact H2|].
  pose proof (handleDelete_two_phase "2" "3" (world_of logs_loaded)
                (state_of logs_loaded) H1 H2) as H.
  cbv zeta in H. destruct H as (_ & (H & _) & _).
  subst delete. cbv beta. simpl world_of at 1 in H. simpl state_of at 1 in H.
  exact H.
Defined.

Lemma saveTask_empty_title_witness :
  trim (TaskList.form_title (TaskList.editForm panelA_blank_title)) = EmptyString /\
  state_of (fire (fun render => TaskList.saveTask render "1") browser panelA_blank_title)
    = panelA_blank_title.
Proof.
  assert (H : trim (TaskList.form_title (TaskList.editForm panelA_blank_title))
              = EmptyString) by reflexivity.
  split; [exact H|].
  exact (proj1 (proj2 (saveTask_empty_title "1" browser panelA_blank_title H))).
Defined.


(** C8, the statement of the specification fails: the empty string is
    present under [tasks] and does not parse, yet [load] does not enter
    the error state; it seeds and overwrites the stored value. *)
Lemma load_empty_string_reseeds :
  let r := TaskList.load browser_empty_text TaskList.initialState in
  localStorage browser_empty_text !! "tasks" = Some EmptyString /\
  JSON_parse EmptyString = (None : option (list Task)) /\
  TaskList.error (state_of r) = None /\
  TaskList.tasks (state_of r) = TaskList.mockTasks T0 /\
  localStorage (world_of r) !! "tasks" = Some (JSON_stringify (TaskList.mockTasks T0)) /\
  localStorage (world_of r) !! "tasks" <> localStorage browser_empty_text !! "tasks".
Proof.
  cbv zeta.
  rewrite (load_empty_string browser_empty_text TaskList.initialState eq_refl).
  repeat split; vm_compute; discriminate.
Qed.

Lemma load_unparseable_error_witness :
  localStorage browser_garbage !! "tasks" = Some "<html>" /\
  "<html>" <> EmptyString /\
  JSON_parse "<html>" = (None : option (list Task)) /\
  TaskList.error (state_of (TaskList.load browser_garbage TaskList.initialState))
    = Some "Failed to load tasks. Please try again later." /\
  localStorage (world_of (TaskList.load browser_garbage TaskList.initialState))
    = localStorage browser_garbage.
Proof.
  assert (H1 : localStorage browser_garbage !! "tasks" = Some "<html>") by reflexivity.
  assert (H2 : "<html>" <> EmptyString) by discriminate.
  assert (H3 : JSON_parse "<html>" = (None : option (list Task))) by reflexivity.
  pose proof (load_unparseable_error browser_garbage TaskList.initialState
                "<html>" H1 H2 H3) as H.
  cbv zeta in H. destruct H as (_ & He & _ & _ & _ & Hs & _).
  repeat split; assumption.
Defined.

Lemma storage_event_null_newValue_witness :
  TaskList.tasks (state_of (TaskList.mounted_listener
                              (mkEvent (Some "tasks") None)
                              (world_of panelA_filtered) (state_of panelA_filtered)))
    = [] /\
  TaskList.filteredTasks (state_of (TaskList.mounted_listener
                                      (mkEvent (Some "tasks") None)
                                      (world_of panelA_filtered)
                                      (state_of panelA_filtered)))
    = [].
Proof.
  pose proof (storage_event_null_newValue tasks_parse_empty_array
                (mkEvent (Some "tasks") None)
                (world_of panelA_filtered) (state_of panelA_filtered)
                eq_refl eq_refl) as H.
  destruct H as (_ & Ht & Hf & _). split; assumption.
Defined.

End Scenarios.

(** ** The task panel: load, persistence and synchronisation *)

Section TaskListLoad.

Import TaskList.

Context {J : JSON (list Task)}.

Hypothesis parse_stringify : forall l : list Task, JSON_parse (JSON_stringify l) = Some l.
Hypothesis parse_empty_text : JSON_parse EmptyString = (None : option (list Task)).

(** [load] with a non-empty value under [tasks] that parses. *)
Lemma load_parsed (w : World) (st : State) (stored : string) (l : list Task) :
  localStorage w !! "tasks" = Some stored ->
  truthy stored = true ->
  JSON_parse stored = Some l ->
  load w st =
    (Normal tt, w,
     mkState l l false None (editingTask st) (editForm st) (filters st)).
Proof.
  intros Hst Ht Hp.
  unfold load, loadTasks, try_finally, try_catch, bind, localStorage_getItem,
    lift_option.
  cbv beta. rewrite Hst, Ht, Hp. reflexivity.
Qed.

(** [load] with a non-empty value under [tasks] that does not parse. *)
Lemma load_unparsed (w : World) (st : State) (stored : string) :
  localStorage w !! "tasks" = Some stored ->
  truthy stored = true ->
  JSON_parse stored = (None : option (list Task)) ->
  load w st =
    (Normal tt,
     mkWorld (localStorage w) (clock w) (dispatched w) (alerts w)
             ("Error loading tasks:" :: console w),
     mkState (tasks st) (filteredTasks st) false
             (Some "Failed to load tasks. Please try again later.")
             (editingTask st) (editForm st) (filters st)).
Proof.
  intros Hst Ht Hp.
  unfold load, loadTasks, try_finally, try_catch, bind, localStorage_getItem,
    lift_option.
  cbv beta. rewrite Hst, Ht, Hp. reflexivity.
Qed.

(** The four ways [load] can go. *)
Lemma load_cases_tasks (w : World) (st : State) :
  (exists stored l,
      localStorage w !! "tasks" = Some stored /\ truthy stored = true /\
      JSON_parse stored = Some l /\
      load w st = (Normal tt, w,
                   mkState l l false None (editingTask st) (editForm st) (filters st))) \/
  (exists stored,
      localStorage w !! "tasks" = Some stored /\ truthy stored = true /\
      load w st =
        (Normal tt,
         mkWorld (localStorage w) (clock w) (dispatched w) (alerts w)
                 ("Error loading tasks:" :: console w),
         mkState (tasks st) (filteredTasks st) false
                 (Some "Failed to load tasks. Please try again later.")
                 (editingTask st) (editForm st) (filters st))) \/
  ((localStorage w !! "tasks" = None \/ localStorage w !! "tasks" = Some EmptyString) /\
   load w st =
     (Normal tt,
      mkWorld (<["tasks" := JSON_stringify (mockTasks (clock w))]> (localStorage w))
              (clock w) (dispatched w) (alerts w) (console w),
      mkState (mockTasks (clock w)) (mockTasks (clock w)) false None
              (editingTask st) (editForm st) (filters st))).
Proof.
  destruct (localStorage w !! "tasks") as [stored|] eqn:Hst.
  - destruct (truthy stored) eqn:Ht.
    + destruct (JSON_parse stored) as [l|] eqn:Hp.
      * left. exists stored, l. repeat split; try assumption.
        now apply (load_parsed w st stored l).
      * right. left. exists stored. repeat split; try assumption.
        now apply (load_unparsed w st stored).
    + right. right. apply truthy_false in Ht. subst stored.
      split; [right; reflexivity|]. now apply load_empty_string.
  - right. right. split; [left; reflexivity|]. now apply load_absent.
Qed.

(** X1.  Whatever the browser holds, [load] completes without throwing
    and takes the panel out of the loading state; it dispatches nothing;
    the error cell ends empty or with the one message for the user; and
    it writes to the store only to seed: a non-empty value under [tasks],
    parseable or not, is left as it is. *)
Theorem load_always_completes (w : World) (st : State) :
  let r := load w st in
  outcome_of r = Normal tt /\
  loading (state_of r) = false /\
  dispatched (world_of r) = dispatched w /\
  (error (state_of r) = None \/
   error (state_of r) = Some "Failed to load tasks. Please try again later.") /\
  (forall stored, localStorage w !! "tasks" = Some stored -> stored <> EmptyString ->
                  localStorage (world_of r) = localStorage w).
Proof.
  intros r. subst r.
  destruct (load_cases_tasks w st)
    as [(stored & l & Hst & Ht & Hp & ->) | [(stored & Hst & Ht & ->) | [Hst ->]]];
    simpl; repeat split; auto.
  intros stored Hs Hne. destruct Hst as [Hst | Hst]; rewrite Hst in Hs.
  - discriminate.
  - injection Hs as <-. contradiction.
Qed.

(** X2.  With a non-empty value under [tasks] that parses, [load] makes
    the parsed collection the projection and the view (the filter of the
    first render keeps every record), clears the error cell, and leaves
    the browser as it was. *)
Theorem load_takes_stored_collection
  (w : World) (st : State) (stored : string) (l : list Task) :
  localStorage w !! "tasks" = Some stored ->
  stored <> EmptyString ->
  JSON_parse stored = Some l ->
  let r := load w st in
  tasks (state_of r) = l /\
  filteredTasks (state_of r) = l /\
  error (state_of r) = None /\
  loading (state_of r) = false /\
  world_of r = w.
Proof.
  intros Hst Hne Hp r. subst r. apply truthy_spec in Hne.
  rewrite (load_parsed w st stored l Hst Hne Hp). simpl. repeat split.
Qed.

(** X3.  What a toggle stores is what a panel mounted afterwards loads:
    after [handleStatusChange] in one panel, the load of another panel in
    the resulting browser gives that panel the collection of the first,
    as projection and as view, without an error. *)
Theorem toggle_survives_reload (taskId : string) (w : World) (st st2 : State) :
  let r := fire (fun render => handleStatusChange render taskId) w st in
  let r2 := load (world_of r) st2 in
  tasks (state_of r2) = tasks (state_of r) /\
  filteredTasks (state_of r2) = tasks (state_of r) /\
  error (state_of r2) = None /\
  localStorage (world_of r2) = localStorage (world_of r).
Proof.
  intros r r2. subst r2 r.
  rewrite (fire_handleStatusChange parse_stringify parse_empty_text). simpl.
  erewrite load_parsed; [simpl; repeat split | apply lookup_insert_eq | |].
  - apply (stringify_truthy parse_stringify parse_empty_text).
  - apply parse_stringify.
Qed.

(** X4.  A toggle in one panel reaches another: the event that
    [handleStatusChange] dispatches carries the new collection, and the
    listener of any other mounted panel that receives it takes that
    collection as its projection, changing nothing in the browser (no
    second event, no write). *)
Theorem toggle_reaches_other_panel (taskId : string) (w : World) (stA stB : State) :
  let rA := fire (fun render => handleStatusChange render taskId) w stA in
  exists e,
    head (dispatched (world_of rA)) = Some e /\
    key e = Some "tasks" /\
    newValue e = Some (JSON_stringify (tasks (state_of rA))) /\
    tasks (state_of (mounted_listener e (world_of rA) stB)) = tasks (state_of rA) /\
    world_of (mounted_listener e (world_of rA) stB) = world_of rA.
Proof.
  intros rA. subst rA.
  rewrite (fire_handleStatusChange parse_stringify parse_empty_text). simpl.
  eexists. split; [reflexivity|]. split; [reflexivity|]. split; [reflexivity|].
  erewrite mounted_listener_parsed; [simpl; split; reflexivity | reflexivity |].
  simpl. rewrite (stringify_truthy parse_stringify parse_empty_text).
  apply parse_stringify.
Qed.

End TaskListLoad.

(** ** The task panel: events and what is on the screen *)

Section TaskListEvents.

Import TaskList.

Context {J : JSON (list Task)}.

(** The listener leaves the cells, or replaces projection and view by one
    parsed collection; the other cells are never written. *)
Lemma mounted_listener_cells (e : StorageEvent) (w : World) (st : State) :
  state_of (mounted_listener e w st) = st \/
  exists l, state_of (mounted_listener e w st) =
            mkState l l (loading st) (error st) (editingTask st) (editForm st)
                    (filters st).
Proof.
  unfold mounted_listener, handleStorageChange.
  destruct (strict_eq (key e) "tasks"); [|left; reflexivity].
  unfold try_catch, bind, lift_option.
  destruct (JSON_parse (or_default (newValue e) "[]")) as [l|].
  - right. exists l. reflexivity.
  - left. reflexivity.
Qed.

Lemma mounted_listener_outcome (e : StorageEvent) (w : World) (st : State) :
  outcome_of (mounted_listener e w st) = Normal tt.
Proof.
  unfold mounted_listener, handleStorageChange.
  destruct (strict_eq (key e) "tasks"); [|reflexivity].
  unfold try_catch, bind, lift_option.
  destruct (JSON_parse (or_default (newValue e) "[]")); reflexivity.
Qed.

(** A handler that writes the collection, filters it, stores and
    dispatches it ends with what the listener makes of the cells it wrote. *)
Lemma fire_handleStatusChange_cells (taskId : string) (w : World) (st : State) :
  exists updatedTasks w1 e,
    state_of (fire (fun render => handleStatusChange render taskId) w st) =
    state_of (mounted_listener e w1
                (mkState updatedTasks (applyFilters_result updatedTasks (filters st))
                         (loading st) (error st) (editingTask st) (editForm st)
                         (filters st))).
Proof.
  do 3 eexists. unfold fire, handleStatusChange, window_dispatchEvent.
  unfold bind, Date_now, setTasks, applyFilters, setFilteredTasks, modify,
    localStorage_setItem, record_event. simpl.
  destruct (mounted_listener _ _ _) as [[c w'] s'] eqn:E. simpl.
  change s' with (state_of (c, w', s')). rewrite <- E. reflexivity.
Qed.

Lemma fire_saveTask_cells (taskId : string) (w : World) (st : State) :
  state_of (fire (fun render => saveTask render taskId) w st) = st \/
  exists updatedTasks w1 e,
    state_of (fire (fun render => saveTask render taskId) w st) =
    state_of (mounted_listener e w1
                (mkState updatedTasks (applyFilters_result updatedTasks (filters st))
                         (loading st) (error st) None (editForm st) (filters st))).
Proof.
  unfold fire, saveTask.
  destruct (negb (truthy (trim (form_title (editForm st))))); [left; reflexivity|].
  right. do 3 eexists. unfold window_dispatchEvent.
  unfold bind, Date_now, setTasks, applyFilters, setFilteredTasks, setEditingTask,
    modify, localStorage_setItem, record_event. simpl.
  destruct (mounted_listener _ _ _) as [[c w'] s'] eqn:E. simpl.
  change s' with (state_of (c, w', s')). rewrite <- E. reflexivity.
Qed.

Lemma applyFilters_result_sublist (l : list Task) (spec : FilterSpec) :
  sublist (applyFilters_result l spec) l.
Proof. rewrite applyFilters_result_filter. apply filter_sublist. Qed.

(** The view is a subsequence of the projection. *)
Let view_within (st : State) : Prop := sublist (filteredTasks st) (tasks st).

Lemma listener_view_within (e : StorageEvent) (w : World) (st : State) :
  view_within st -> view_within (state_of (mounted_listener e w st)).
Proof.
  intros H. destruct (mounted_listener_cells e w st) as [-> | [l ->]];
    [exact H | unfold view_within; simpl; reflexivity].
Qed.

Lemma handle_view_within (ev : Event) (w : World) (st : State) :
  view_within st -> view_within (state_of (handle ev w st)).
Proof.
  intros H. destruct ev; simpl handle.
  - now apply listener_view_within.
  - unfold view_within. simpl. apply applyFilters_result_sublist.
  - unfold view_within. simpl. reflexivity.
  - destruct (fire_handleStatusChange_cells taskId w st) as (u & w1 & e & ->).
    apply listener_view_within. unfold view_within. simpl.
    apply applyFilters_result_sublist.
  - exact H.
  - exact H.
  - destruct (fire_saveTask_cells taskId w st) as [-> | (u & w1 & e & ->)];
      [exact H|].
    apply listener_view_within. unfold view_within. simpl.
    apply applyFilters_result_sublist.
  - exact H.
Qed.

Lemma load_view_within (w : World) (st : State) :
  view_within st -> view_within (state_of (load w st)).
Proof.
  intros H.
  destruct (load_cases_tasks w st)
    as [(stored & l & _ & _ & _ & ->) | [(stored & _ & _ & ->) | [_ ->]]];
    unfold view_within; simpl; [reflexivity | exact H | reflexivity].
Qed.

Lemma reachable_view_within (st : State) : reachable st -> view_within st.
Proof.
  induction 1.
  - unfold view_within. simpl. constructor.
  - now apply load_view_within.
  - now apply handle_view_within.
Qed.

Lemma reachable_in_schema_reachable `{JSONSyntax} (st : State) :
  reachable_in_schema st -> reachable st.
Proof. induction 1; constructor; assumption. Qed.

(** X5.  In every state a mounted panel can reach through its load, the
    storage events it receives and the user's actions, as long as the
    texts it is given are of the persisted layout (what the load finds
    under [tasks] and what a [tasks] event carries is not JSON, or is the
    JSON of an array of task records), the view is a subsequence of the
    projection; so the header never announces more records shown than
    there are. *)
Theorem view_is_part_of_collection `{JSONSyntax} (st : State) :
  reachable_in_schema st ->
  sublist (filteredTasks st) (tasks st) /\
  (forall shown total body,
      render st = ListView shown total body -> (shown <= total)%nat).
Proof.
  intros Hr.
  assert (Hv : view_within st)
    by (apply reachable_view_within, reachable_in_schema_reachable, Hr).
  split; [exact Hv|].
  intros shown total body. unfold render.
  destruct (loading st); [discriminate|].
  destruct (truthy _); [discriminate|].
  destruct (Nat.eqb _ 0); [discriminate|].
  intros [= <- <- _]. apply sublist_length. exact Hv.
Qed.

Lemma handle_error_loading (ev : Event) (w : World) (st : State) :
  error (state_of (handle ev w st)) = error st /\
  loading (state_of (handle ev w st)) = loading st.
Proof.
  destruct ev; simpl handle; try (split; reflexivity).
  - destruct (mounted_listener_cells e w st) as [-> | [l ->]]; split; reflexivity.
  - destruct (fire_handleStatusChange_cells taskId w st) as (u & w1 & e & ->).
    destruct (mounted_listener_cells e w1
                (mkState u (applyFilters_result u (filters st)) (loading st)
                         (error st) (editingTask st) (editForm st) (filters st)))
      as [-> | [l ->]]; split; reflexivity.
  - destruct (fire_saveTask_cells taskId w st) as [-> | (u & w1 & e & ->)];
      [split; reflexivity|].
    destruct (mounted_listener_cells e w1
                (mkState u (applyFilters_result u (filters st)) (loading st)
                         (error st) None (editForm st) (filters st)))
      as [-> | [l ->]]; split; reflexivity.
Qed.

(** X6.  Only the load writes the error and the loading cells: no storage
    event and no action of the user changes them.  So a panel whose load
    failed keeps showing the error, also after a storage event with a
    valid collection, and a panel that is still loading keeps showing the
    spinner. *)
Theorem error_and_loading_only_change_on_load (ev : Event) (w : World) (st : State) :
  error (state_of (handle ev w st)) = error st /\
  loading (state_of (handle ev w st)) = loading st /\
  (forall message, render st = ErrorView message ->
                   render (state_of (handle ev w st)) = ErrorView message) /\
  (render st = LoadingView -> render (state_of (handle ev w st)) = LoadingView).
Proof.
  destruct (handle_error_loading ev w st) as [He Hl].
  split; [exact He|]. split; [exact Hl|].
  unfold render. rewrite He, Hl.
  destruct (loading st); [split; [discriminate | reflexivity]|].
  destruct (truthy (default EmptyString (error st))).
  - split; [intros m H; exact H | discriminate].
  - destruct (Nat.eqb (List.length (tasks st)) 0); split; discriminate.
Qed.

(** X7.  A change of filter only recomputes the view: it sets the named
    field, makes the view the projection filtered by the new
    specification, and leaves the projection and the browser as they
    were.  A change of status and a change of search text, with a render
    in between, give the same cells in either order. *)
Theorem filter_changes_compose (a b : string) (w1 w2 : World) (st : State) :
  let change := fun filterType value w s =>
                  fire (fun render => handleFilterChange render filterType value) w s in
  let r1 := change "status" a w1 st in
  let r2 := change "search" b w2 (state_of r1) in
  let r1' := change "search" b w1 st in
  let r2' := change "status" a w2 (state_of r1') in
  filters (state_of r1) = mkFilters a (f_search (filters st)) /\
  filteredTasks (state_of r1) = applyFilters_result (tasks st) (filters (state_of r1)) /\
  tasks (state_of r1) = tasks st /\
  world_of r1 = w1 /\
  filters (state_of r2) = mkFilters a b /\
  filteredTasks (state_of r2) = applyFilters_result (tasks st) (mkFilters a b) /\
  world_of r2 = w2 /\
  state_of r2' = state_of r2.
Proof. cbv zeta. simpl. repeat split. Qed.

(** X8.  The listener is safe against what it is not meant for.  An event
    whose key is not [tasks] (another key, or no key at all) changes
    nothing.  A [tasks] event whose text does not parse is caught: the
    listener completes normally, the cells, the store and the dispatched
    events are as before, and one error is logged. *)
Theorem listener_ignores_and_survives (e : StorageEvent) (w : World) (st : State) :
  outcome_of (mounted_listener e w st) = Normal tt /\
  (key e <> Some "tasks" -> mounted_listener e w st = (Normal tt, w, st)) /\
  (key e = Some "tasks" ->
   JSON_parse (or_default (newValue e) "[]") = (None : option (list Task)) ->
   state_of (mounted_listener e w st) = st /\
   localStorage (world_of (mounted_listener e w st)) = localStorage w /\
   dispatched (world_of (mounted_listener e w st)) = dispatched w /\
   console (world_of (mounted_listener e w st))
     = "Error parsing tasks from storage:" :: console w).
Proof.
  split; [apply mounted_listener_outcome|]. split.
  - intros Hk. apply mounted_listener_other_key.
    destruct (key e) as [k|]; simpl; [|reflexivity].
    apply String.eqb_neq. congruence.
  - intros Hk Hp. unfold mounted_listener, handleStorageChange.
    rewrite Hk. simpl strict_eq. cbv iota.
    unfold try_catch, bind, lift_option. rewrite Hp. simpl. repeat split.
Qed.

(** X9.  Editing and cancelling never reach the data.  [startEditing]
    marks the record and copies its title and description into the form;
    typing replaces the field typed into and keeps the other; and after
    [cancelEditing] the panel is out of edit mode with the projection,
    the view and the whole browser as they were before the edit started. *)
Theorem cancel_discards_edit
  (task : Task) (newTitle newDescription : string) (w : World) (st : State) :
  let r1 := fire (fun render => startEditing render task) w st in
  let r2 := fire (fun render => handleInputChange render "title" newTitle)
                 (world_of r1) (state_of r1) in
  let r3 := fire (fun render => handleInputChange render "description" newDescription)
                 (world_of r2) (state_of r2) in
  let r4 := fire cancelEditing (world_of r3) (state_of r3) in
  (editingTask (state_of r1) = Some (_id task) /\
   editForm (state_of r1) = mkForm (title task) (description task)) /\
  editForm (state_of r2) = mkForm newTitle (description task) /\
  (editingTask (state_of r3) = Some (_id task) /\
   editForm (state_of r3) = mkForm newTitle newDescription) /\
  (editingTask (state_of r4) = None /\
   tasks (state_of r4) = tasks st /\
   filteredTasks (state_of r4) = filteredTasks st /\
   filters (state_of r4) = filters st /\
   world_of r4 = w).
Proof. cbv zeta. simpl. repeat split. Qed.

(** X10.  The colour of the priority badge does not depend on letter
    case, and it is the grey one exactly when the priority, in lower
    case, is none of [high], [medium] and [low] (an absent priority
    included). *)
Theorem getPriorityClasses_ignores_case (p : string) :
  getPriorityClasses (Some p) = getPriorityClasses (Some (toLowerCase p)) /\
  (getPriorityClasses (Some p) = "bg-gray-100 text-gray-800" <->
   toLowerCase p <> "high" /\ toLowerCase p <> "medium" /\ toLowerCase p <> "low") /\
  getPriorityClasses None = "bg-gray-100 text-gray-800".
Proof.
  unfold getPriorityClasses. simpl. rewrite toLowerCase_idem.
  split; [reflexivity|]. split; [|reflexivity].
  destruct (String.eqb_spec (toLowerCase p) "high") as [->|H1].
  { split; [discriminate | intros (H & _); congruence]. }
  destruct (String.eqb_spec (toLowerCase p) "medium") as [->|H2].
  { split; [discriminate | intros (_ & H & _); congruence]. }
  destruct (String.eqb_spec (toLowerCase p) "low") as [->|H3].
  { split; [discriminate | intros (_ & _ & H); congruence]. }
  split; auto.
Qed.

End TaskListEvents.

(** ** The task panel: save and toggle *)

Section TaskListMutations.

Import TaskList.

Context {J : JSON (list Task)}.

Hypothesis parse_stringify : forall l : list Task, JSON_parse (JSON_stringify l) = Some l.
Hypothesis parse_empty_array : JSON_parse "[]" = Some ([] : list Task).
Hypothesis parse_empty_text : JSON_parse EmptyString = (None : option (list Task)).

Let toggle (taskId : string) (now : instant) : Task -> Task :=
  fun task =>
    if String.eqb (_id task) taskId
    then mkTask (_id task) (title task) (description task)
                (if String.eqb (status task) "complete"
                 then "incomplete" else "complete")
                (priority task) (dueDate task) (createdAt task)
                (Some now)
    else task.

Let save (taskId newTitle newDescription : string) (now : instant) : Task -> Task :=
  fun task =>
    if String.eqb (_id task) taskId
    then mkTask (_id task) newTitle newDescription
                (status task) (priority task) (dueDate task)
                (createdAt task) (Some now)
    else task.

(** The run of [saveTask] past the validation. *)
Lemma fire_saveTask (taskId : string) (w : World) (st : State) :
  truthy (trim (form_title (editForm st))) = true ->
  let updatedTasks :=
    List.map (save taskId (form_title (editForm st)) (form_description (editForm st))
                   (clock w))
             (tasks st) in
  fire (fun render => saveTask render taskId) w st =
    (Normal tt,
     mkWorld (<["tasks" := JSON_stringify updatedTasks]> (localStorage w)) (clock w)
             (mkEvent (Some "tasks") (Some (JSON_stringify updatedTasks)) :: dispatched w)
             (alerts w) (console w),
     mkState updatedTasks updatedTasks (loading st) (error st) None
             (editForm st) (filters st)).
Proof.
  intros Ht updatedTasks. unfold fire, saveTask. rewrite Ht. simpl negb. cbv iota.
  unfold window_dispatchEvent.
  unfold bind at 1. unfold Date_now. fold updatedTasks.
  unfold bind, setTasks, applyFilters, setFilteredTasks, setEditingTask, modify,
    localStorage_setItem, record_event. simpl.
  erewrite mounted_listener_parsed; [reflexivity | reflexivity |].
  simpl. rewrite (stringify_truthy parse_stringify parse_empty_text).
  apply parse_stringify.
Qed.

Lemma save_edited (taskId newTitle newDescription : string) (now : instant)
      (l : list Task) :
  Forall2 (edited taskId newTitle newDescription now) l
          (List.map (save taskId newTitle newDescription now) l).
Proof.
  induction l as [|t l IH]; simpl; constructor; [|exact IH].
  unfold edited, save. destruct (String.eqb_spec (_id t) taskId) as [Heq|Hne].
  - rewrite decide_True by exact Heq. simpl. repeat split.
  - now rewrite decide_False by exact Hne.
Qed.

(** X11.  With a title that is not blank, [saveTask] replaces the title
    and the description of every record with the identifier by those of
    the form, stamps it with the clock reading and keeps its other
    fields and every other record; it leaves edit mode, stores the
    collection under [tasks], dispatches it in one event and raises no
    alert; and a panel that loads afterwards gets the same collection. *)
Theorem saveTask_updates_record (taskId : string) (w : World) (st st2 : State) :
  trim (form_title (editForm st)) <> EmptyString ->
  let r := fire (fun render => saveTask render taskId) w st in
  Forall2 (edited taskId (form_title (editForm st)) (form_description (editForm st))
                  (clock w))
          (tasks st) (tasks (state_of r)) /\
  editingTask (state_of r) = None /\
  localStorage (world_of r) !! "tasks" = Some (JSON_stringify (tasks (state_of r))) /\
  dispatched (world_of r)
    = mkEvent (Some "tasks") (Some (JSON_stringify (tasks (state_of r)))) :: dispatched w /\
  alerts (world_of r) = alerts w /\
  tasks (state_of (load (world_of r) st2)) = tasks (state_of r).
Proof.
  intros Hne r. subst r. apply truthy_spec in Hne.
  rewrite (fire_saveTask taskId w st Hne). simpl.
  split; [apply save_edited|]. split; [reflexivity|].
  split; [apply lookup_insert_eq|]. split; [reflexivity|]. split; [reflexivity|].
  erewrite load_parsed; [reflexivity | apply lookup_insert_eq | |].
  - apply (stringify_truthy parse_stringify parse_empty_text).
  - apply parse_stringify.
Qed.

Lemma saveTask_blank_cells (taskId : string) (w : World) (st : State) :
  trim (form_title (editForm st)) = EmptyString ->
  state_of (fire (fun render => saveTask render taskId) w st) = st.
Proof. intros Hb. unfold fire, saveTask. rewrite Hb. reflexivity. Qed.

(** X12.  Saving never brings a blank title into the collection: if no
    record of the projection has a blank title before [saveTask], none
    has one after it, whatever the form holds. *)
Theorem saveTask_keeps_titles (taskId : string) (w : World) (st : State) :
  Forall titled (tasks st) ->
  Forall titled (tasks (state_of (fire (fun render => saveTask render taskId) w st))).
Proof.
  intros Hall.
  destruct (truthy (trim (form_title (editForm st)))) eqn:Ht.
  - rewrite (fire_saveTask taskId w st Ht). simpl.
    apply List.Forall_forall. intros t' Hin.
    apply List.in_map_iff in Hin as (t & <- & Hin).
    unfold save. destruct (String.eqb (_id t) taskId).
    + unfold titled. simpl. now apply truthy_spec.
    + rewrite List.Forall_forall in Hall. now apply Hall.
  - apply truthy_false in Ht.
    rewrite (saveTask_blank_cells taskId w st Ht). exact Hall.
Qed.

(** X13.  A [tasks] event whose [newValue] is the empty string is
    handled like one without a value: the projection and the view become
    empty, although the empty string is not the text of a collection. *)
Theorem storage_event_empty_newValue (e : StorageEvent) (w : World) (st : State) :
  key e = Some "tasks" ->
  newValue e = Some EmptyString ->
  outcome_of (mounted_listener e w st) = Normal tt /\
  tasks (state_of (mounted_listener e w st)) = [] /\
  filteredTasks (state_of (mounted_listener e w st)) = [] /\
  world_of (mounted_listener e w st) = w.
Proof.
  intros Hk Hn.
  rewrite (mounted_listener_parsed e [] w st Hk); [simpl; auto|].
  rewrite Hn. exact parse_empty_array.
Qed.

Lemma toggle_toggle_restamped (taskId : string) (now1 now2 : instant) (l : list Task) :
  Forall two_valued l ->
  Forall2 (restamped taskId now2) l
          (List.map (toggle taskId now2) (List.map (toggle taskId now1) l)).
Proof.
  induction 1 as [|t l Ht Hl IH]; simpl; constructor; [|exact IH].
  unfold restamped, toggle.
  destruct (String.eqb_spec (_id t) taskId) as [Heq|Hne].
  - simpl. rewrite (proj2 (String.eqb_eq _ _) Heq). simpl.
    rewrite decide_True by exact Heq.
    destruct Ht as [-> | ->]; simpl; repeat split.
  - rewrite (proj2 (String.eqb_neq _ _) Hne).
    rewrite decide_False by exact Hne. repeat split.
Qed.

(** X14.  Toggling the same record twice is a round trip for everything
    but the time stamp: when every status of the projection is
    [complete] or [incomplete], two runs of [handleStatusChange] for one
    identifier give back every record with its status and all its other
    fields, the records with that identifier stamped with the clock
    reading of the second run. *)
Theorem toggle_twice_restores (taskId : string) (w1 w2 : World) (st : State) :
  Forall two_valued (tasks st) ->
  let r1 := fire (fun render => handleStatusChange render taskId) w1 st in
  let r2 := fire (fun render => handleStatusChange render taskId) w2 (state_of r1) in
  Forall2 (restamped taskId (clock w2)) (tasks st) (tasks (state_of r2)).
Proof.
  intros Hall r1 r2. subst r2 r1.
  rewrite !(fire_handleStatusChange parse_stringify parse_empty_text). simpl.
  now apply toggle_toggle_restamped.
Qed.

End TaskListMutations.

(** ** The activity-log panel: load, reload and the confirmation *)

Section RecentUsersLoad.

Import RecentUsers.

Context {J : JSON (list UserLog)}.

(** The test of [loadUserLogs] on the stored text. *)
Let usable (stored : string) : bool :=
  (truthy stored && negb (String.eqb stored "null")
   && negb (String.eqb stored "[]"))%bool.

Lemma usable_spec (stored : string) :
  usable stored = true <->
  stored <> EmptyString /\ stored <> "null" /\ stored <> "[]".
Proof.
  unfold usable.
  rewrite !andb_true_iff, !negb_true_iff, !String.eqb_neq, truthy_spec. tauto.
Qed.

Lemma load_logs_parsed (w : World) (st : State) (stored : string) (l : list UserLog) :
  localStorage w !! "userLogs" = Some stored ->
  usable stored = true ->
  JSON_parse stored = Some l ->
  loadUserLogs initialState w st =
    (Normal tt, w, mkState (Array_sort byLoginTime l) false (deleteConfirm st)).
Proof.
  intros Hst Hu Hp. unfold usable in Hu.
  unfold loadUserLogs, try_catch, bind, localStorage_getItem, lift_option.
  cbv beta. rewrite Hst, Hu, Hp. reflexivity.
Qed.

Lemma load_logs_unparsed (w : World) (st : State) (stored : string) :
  localStorage w !! "userLogs" = Some stored ->
  usable stored = true ->
  JSON_parse stored = (None : option (list UserLog)) ->
  loadUserLogs initialState w st =
    (Normal tt,
     mkWorld (localStorage w) (clock w) (dispatched w) (alerts w)
             ("Error loading user logs:" :: console w),
     mkState (userLogs st) false (deleteConfirm st)).
Proof.
  intros Hst Hu Hp. unfold usable in Hu.
  unfold loadUserLogs, try_catch, bind, localStorage_getItem, lift_option.
  cbv beta. rewrite Hst, Hu, Hp. reflexivity.
Qed.

Lemma load_logs_seeded (w : World) (st : State) :
  (localStorage w !! "userLogs" = None \/
   exists stored, localStorage w !! "userLogs" = Some stored /\ usable stored = false) ->
  loadUserLogs initialState w st =
    (Normal tt,
     mkWorld (<["userLogs" := JSON_stringify (mockLogs (clock w))]> (localStorage w))
             (clock w) (dispatched w) (alerts w) (console w),
     mkState (mockLogs (clock w)) false (deleteConfirm st)).
Proof.
  unfold loadUserLogs, try_catch, bind, localStorage_getItem, lift_option.
  cbv beta. intros [Hst | (stored & Hst & Hu)]; rewrite Hst.
  - reflexivity.
  - unfold usable in Hu. rewrite Hu. reflexivity.
Qed.

(** X15.  Loading loses and invents no record: with a usable value under
    [userLogs] that parses, the projection after [load] is a permutation
    of the parsed collection, ordered most recent first, and the browser
    is as it was (nothing is written back). *)
Theorem load_keeps_stored_logs (w : World) (stored : string) (l : list UserLog) :
  localStorage w !! "userLogs" = Some stored ->
  stored <> EmptyString -> stored <> "null" -> stored <> "[]" ->
  JSON_parse stored = Some l ->
  let r := load w initialState in
  Permutation l (userLogs (state_of r)) /\
  newest_first (userLogs (state_of r)) /\
  loading (state_of r) = false /\
  world_of r = w.
Proof.
  intros Hst H1 H2 H3 Hp r. subst r. unfold load.
  rewrite (load_logs_parsed w initialState stored l Hst); [|apply usable_spec; auto|exact Hp].
  simpl. split; [apply Array_sort_perm|]. split; [apply Array_sort_newest_first|].
  split; reflexivity.
Qed.

(** X16.  No value, the empty string, the text [null] and the text [[]]
    under [userLogs] are all taken as nothing stored: [load] makes the
    three seed records the projection and overwrites the stored value
    with their JSON text. *)
Theorem load_reseeds_on_sentinel (w : World) :
  (localStorage w !! "userLogs" = None \/
   localStorage w !! "userLogs" = Some EmptyString \/
   localStorage w !! "userLogs" = Some "null" \/
   localStorage w !! "userLogs" = Some "[]") ->
  let r := load w initialState in
  userLogs (state_of r) = mockLogs (clock w) /\
  List.length (userLogs (state_of r)) = 3%nat /\
  localStorage (world_of r) !! "userLogs" = Some (JSON_stringify (mockLogs (clock w))) /\
  loading (state_of r) = false.
Proof.
  intros Hs r. subst r. unfold load. rewrite load_logs_seeded.
  - simpl. rewrite lookup_insert_eq. repeat split.
  - destruct Hs as [H | [H | [H | H]]]; [left; exact H | right ..];
      eexists; (split; [exact H | reflexivity]).
Qed.

(** X17.  A usable value under [userLogs] that does not parse is
    swallowed: [load] completes normally and leaves the loading state,
    the projection stays empty, the stored value is not overwritten, and
    the failure only goes to the console. *)
Theorem load_swallows_unparseable_logs (w : World) (stored : string) :
  localStorage w !! "userLogs" = Some stored ->
  stored <> EmptyString -> stored <> "null" -> stored <> "[]" ->
  JSON_parse stored = (None : option (list UserLog)) ->
  let r := load w initialState in
  outcome_of r = Normal tt /\
  userLogs (state_of r) = [] /\
  loading (state_of r) = false /\
  localStorage (world_of r) = localStorage w /\
  console (world_of r) = "Error loading user logs:" :: console w.
Proof.
  intros Hst H1 H2 H3 Hp r. subst r. unfold load.
  rewrite (load_logs_unparsed w initialState stored Hst); [|apply usable_spec; auto|exact Hp].
  simpl. repeat split.
Qed.

End RecentUsersLoad.

Section RecentUsersEvents.

Import RecentUsers.

Context {J : JSON (list UserLog)}.

Let without (logId : string) (l : list UserLog) : list UserLog :=
  List.filter (fun log => negb (String.eqb (log_id log) logId)) l.

Lemma newest_first_filter (p : UserLog -> bool) (l : list UserLog) :
  newest_first l -> newest_first (List.filter p l).
Proof.
  unfold newest_first. induction 1 as [|x l Hs IH Hx]; simpl; [constructor|].
  destruct (p x); [|exact IH].
  constructor; [exact IH|].
  rewrite List.Forall_forall in *. intros y Hy.
  apply List.filter_In in Hy as [Hy _]. now apply Hx.
Qed.

(** The stable sort leaves a sorted collection as it is. *)
Lemma Array_sort_newest_first_id (l : list UserLog) :
  newest_first l -> Array_sort byLoginTime l = l.
Proof.
  unfold newest_first. induction 1 as [|x l Hs IH Hx]; [reflexivity|].
  change (Array_sort byLoginTime (x :: l))
    with (sort_insert byLoginTime x (Array_sort byLoginTime l)).
  rewrite IH. destruct l as [|y l]; simpl; [reflexivity|].
  apply Forall_inv in Hx. unfold byLoginTime.
  destruct (Z.leb_spec (loginTime y - loginTime x) 0); [reflexivity | lia].
Qed.

Lemma handle_newest_first (ev : Event) (w : World) (st : State) :
  newest_first (userLogs st) -> newest_first (userLogs (state_of (handle ev w st))).
Proof.
  intros H. destruct ev; simpl handle.
  - unfold fire, handleDelete.
    destruct (strict_eq (deleteConfirm st) logId); simpl; [|exact H].
    now apply newest_first_filter.
  - exact H.
  - simpl. apply mockLogs_newest_first.
Qed.

(** X18.  Once loaded, the projection stays ordered most recent first:
    no confirmed deletion, cancellation or reset breaks the order that
    the load established. *)
Theorem logs_stay_newest_first (st : State) :
  reachable st -> newest_first (userLogs st).
Proof.
  induction 1 as [w | ev w st Hr IH].
  - pose proof (load_cases w) as Hc. cbv zeta in Hc.
    destruct Hc as [(stored & parsed & _ & _ & -> & _) | [[-> _] | [-> _]]].
    + apply Array_sort_newest_first.
    + apply mockLogs_newest_first.
    + constructor.
  - now apply handle_newest_first.
Qed.

(** X19.  A cancellation forces a fresh confirmation: after
    [cancelDelete], whatever was pending, a [handleDelete] only marks its
    record (nothing is removed, nothing is stored), and only the
    [handleDelete] after that removes it. *)
Theorem cancelDelete_forces_fresh_request (logId : string) (w : World) (st : State) :
  let r1 := fire cancelDelete w st in
  let r2 := fire (fun render => handleDelete render logId) (world_of r1) (state_of r1) in
  let r3 := fire (fun render => handleDelete render logId) (world_of r2) (state_of r2) in
  (deleteConfirm (state_of r1) = None /\ userLogs (state_of r1) = userLogs st /\
   world_of r1 = w) /\
  (deleteConfirm (state_of r2) = Some logId /\ userLogs (state_of r2) = userLogs st /\
   world_of r2 = w) /\
  (deleteConfirm (state_of r3) = None /\
   userLogs (state_of r3) = without logId (userLogs st) /\
   localStorage (world_of r3) !! "userLogs"
     = Some (JSON_stringify (without logId (userLogs st)))).
Proof.
  cbv zeta. unfold fire, cancelDelete, handleDelete. simpl.
  rewrite String.eqb_refl. simpl. rewrite lookup_insert_eq. repeat split.
Qed.

Hypothesis parse_stringify :
  forall l : list UserLog, JSON_parse (JSON_stringify l) = Some l.
Hypothesis parse_empty_array : JSON_parse "[]" = Some ([] : list UserLog).
Hypothesis parse_empty_text : JSON_parse EmptyString = (None : option (list UserLog)).
Hypothesis parse_null : JSON_parse "null" = (None : option (list UserLog)).

(** The text of a collection with a record in it passes the test of
    [loadUserLogs]. *)
Lemma stringify_nonempty_usable (l : list UserLog) :
  l <> [] ->
  JSON_stringify l <> EmptyString /\ JSON_stringify l <> "null" /\
  JSON_stringify l <> "[]".
Proof.
  intros Hl. pose proof (parse_stringify l) as Hp.
  repeat split; intros E; rewrite E in Hp.
  - rewrite parse_empty_text in Hp. discriminate.
  - rewrite parse_null in Hp. discriminate.
  - rewrite parse_empty_array in Hp. injection Hp as <-. contradiction.
Qed.

Lemma load_stored_sorted (w : World) (l : list UserLog) :
  localStorage w !! "userLogs" = Some (JSON_stringify l) ->
  l <> [] -> newest_first l ->
  userLogs (state_of (load w initialState)) = l /\
  world_of (load w initialState) = w.
Proof.
  intros Hst Hl Hs. destruct (stringify_nonempty_usable l Hl) as (H1 & H2 & H3).
  unfold load, loadUserLogs, try_catch, bind, localStorage_getItem, lift_option.
  cbv beta. rewrite Hst.
  apply truthy_spec in H1. apply String.eqb_neq in H2, H3.
  rewrite H1, H2, H3, parse_stringify. simpl.
  rewrite Array_sort_newest_first_id by exact Hs. split; reflexivity.
Qed.

(** X20.  A confirmed deletion that leaves at least one record survives
    a remount: when the projection is ordered most recent first (as it is
    after a load) and the record is pending, the load of a panel mounted
    after [handleDelete] gives exactly the reduced projection, in the
    same order, and writes nothing. *)
Theorem deletion_survives_reload (logId : string) (w : World) (st : State) :
  newest_first (userLogs st) ->
  deleteConfirm st = Some logId ->
  without logId (userLogs st) <> [] ->
  let r := fire (fun render => handleDelete render logId) w st in
  let r2 := load (world_of r) initialState in
  userLogs (state_of r) = without logId (userLogs st) /\
  userLogs (state_of r2) = userLogs (state_of r) /\
  world_of r2 = world_of r.
Proof.
  intros Hs Hp Hne r r2. subst r2 r.
  rewrite (handleDelete_confirms logId w st Hp). simpl world_of. simpl state_of.
  simpl userLogs. split; [reflexivity|].
  apply load_stored_sorted.
  - simpl. apply lookup_insert_eq.
  - exact Hne.
  - now apply newest_first_filter.
Qed.

(** X21.  [resetLogs] puts the three seed records in the projection and
    their JSON text in the store, whatever was there; a panel mounted
    afterwards loads exactly these records in the same order. *)
Theorem resetLogs_survives_reload (w : World) (st : State) :
  let r := fire resetLogs w st in
  let r2 := load (world_of r) initialState in
  userLogs (state_of r) = mockLogs (clock w) /\
  localStorage (world_of r) !! "userLogs" = Some (JSON_stringify (mockLogs (clock w))) /\
  userLogs (state_of r2) = mockLogs (clock w) /\
  world_of r2 = world_of r.
Proof.
  intros r r2. subst r2 r. unfold fire, resetLogs. simpl.
  rewrite lookup_insert_eq. split; [reflexivity|]. split; [reflexivity|].
  apply load_stored_sorted.
  - simpl. apply lookup_insert_eq.
  - discriminate.
  - apply mockLogs_newest_first.
Qed.

Hypothesis stringify_empty_array : JSON_stringify ([] : list UserLog) = "[]".

(** X22.  Deleting the last record does not survive a remount: when
    every record of the projection has the pending identifier, the
    confirmed [handleDelete] empties the projection and stores the text
    [[]], which the load of a panel mounted afterwards takes as nothing
    stored, so that panel shows the three seed records again. *)
Theorem deleting_every_log_reseeds (logId : string) (w : World) (st : State) :
  deleteConfirm st = Some logId ->
  Forall (fun log => log_id log = logId) (userLogs st) ->
  let r := fire (fun render => handleDelete render logId) w st in
  let r2 := load (world_of r) initialState in
  userLogs (state_of r) = [] /\
  localStorage (world_of r) !! "userLogs" = Some "[]" /\
  userLogs (state_of r2) = mockLogs (clock w) /\
  List.length (userLogs (state_of r2)) = 3%nat.
Proof.
  intros Hp Hall r r2. subst r2 r.
  assert (He : without logId (userLogs st) = []).
  { unfold without. induction Hall as [|x l Hx Hl IH]; simpl; [reflexivity|].
    rewrite (proj2 (String.eqb_eq _ _) Hx). simpl. exact IH. }
  rewrite (handleDelete_confirms logId w st Hp). fold (without logId (userLogs st)).
  rewrite He, stringify_empty_array.
  cbn [world_of state_of fst snd userLogs localStorage].
  rewrite lookup_insert_eq. split; [reflexivity|]. split; [reflexivity|].
  unfold load. rewrite load_logs_seeded.
  - simpl. split; reflexivity.
  - right. exists "[]". split; [apply lookup_insert_eq | reflexivity].
Qed.

End RecentUsersEvents.

(** ** The route guard *)

Section AppFacts.

Import App.

Lemma truthy_opt_spec (v : option string) :
  truthy_opt v = true <-> exists s, v = Some s /\ s <> EmptyString.
Proof.
  destruct v as [s|]; simpl.
  - rewrite truthy_spec. split.
    + intros H. exists s. auto.
    + intros (s' & [= <-] & H). exact H.
  - split; [discriminate | intros (s & H & _); discriminate].
Qed.

Lemma authenticated_spec (auth : Auth) (storage : gmap string string) :
  (user auth || truthy_opt (storage !! "token"))%bool = true <->
  authenticated auth storage.
Proof. unfold authenticated. now rewrite orb_true_iff, truthy_opt_spec. Qed.

Lemma ProtectedRoute_guard
  (auth : Auth) (storage : gmap string string) (pathname : string)
  (requiredRole : option string) :
  ProtectedRoute auth storage pathname requiredRole = Children <->
  authenticated auth storage /\
  (forall r, requiredRole = Some r -> r <> EmptyString -> hasRole auth r = true).
Proof.
  unfold ProtectedRoute. rewrite <- authenticated_spec.
  destruct (user auth || truthy_opt (storage !! "token"))%bool; simpl.
  - destruct requiredRole as [r|].
    + destruct (truthy r) eqn:Ht; simpl.
      * apply truthy_spec in Ht.
        destruct (hasRole auth r) eqn:Hr; simpl.
        -- split; [|reflexivity]. intros _. split; [reflexivity|].
           intros r' [= <-] _. exact Hr.
        -- split; [discriminate|]. intros [_ H]. specialize (H r eq_refl Ht). congruence.
      * split; [|reflexivity]. intros _. split; [reflexivity|].
        intros r' [= <-] Hne. apply truthy_false in Ht. contradiction.
    + split; [|reflexivity]. intros _. split; [reflexivity | discriminate].
  - split; [discriminate | intros [H _]; discriminate].
Qed.

Lemma element_screen_shows
  (auth : Auth) (storage : gmap string string) (pathname page page' : string)
  (role : option string) :
  element_screen auth storage pathname (Protected role page') = Shows page ->
  authenticated auth storage /\
  (forall r, role = Some r -> r <> EmptyString -> hasRole auth r = true).
Proof.
  simpl. intros H. apply (proj1 (ProtectedRoute_guard auth storage pathname role)).
  destruct (ProtectedRoute auth storage pathname role); [discriminate | reflexivity].
Qed.

(** X23.  The guard lets the children through exactly when the visitor
    is authenticated (a user object, or a non-empty token in the store)
    and, if a non-empty role is required, the context grants that role.
    A visitor who is not authenticated is sent to [/login] with the path
    he came from, whatever role the route requires. *)
Theorem ProtectedRoute_children_iff
  (auth : Auth) (storage : gmap string string) (pathname : string)
  (requiredRole : option string) :
  (ProtectedRoute auth storage pathname requiredRole = Children <->
   authenticated auth storage /\
   (forall r, requiredRole = Some r -> r <> EmptyString -> hasRole auth r = true)) /\
  (~ authenticated auth storage ->
   ProtectedRoute auth storage pathname requiredRole
     = NavigateTo "/login" (Some pathname)).
Proof.
  split; [apply ProtectedRoute_guard|].
  rewrite <- authenticated_spec. unfold ProtectedRoute.
  destruct (user auth || truthy_opt (storage !! "token"))%bool; simpl.
  - intros H. exfalso. apply H. reflexivity.
  - reflexivity.
Qed.

Ltac route_case Hshow :=
  split;
  [ intros Hp; vm_compute in Hp;
    first [ discriminate Hp
          | apply element_screen_shows in Hshow as [Ha Hr];
            split; [exact Ha | apply (Hr "admin" eq_refl); discriminate] ]
  | intros [Hp | Hp];
    first [ discriminate Hp
          | vm_compute in Hp; discriminate Hp
          | apply element_screen_shows in Hshow as [Ha _]; exact Ha ] ].

(** X24.  Access control of the route table: a route under [/admin/]
    shows its page only to an authenticated visitor to whom the context
    grants the role [admin], and a route under [/user/], like
    [/landing], only to an authenticated visitor. *)
Theorem routes_access_control
  (auth : Auth) (storage : gmap string string) (pathname path page : string)
  (el : Element) :
  In (path, el) routes ->
  element_screen auth storage pathname el = Shows page ->
  (startsWith path "/admin/" = true ->
   authenticated auth storage /\ hasRole auth "admin" = true) /\
  (startsWith path "/user/" = true \/ path = "/landing" ->
   authenticated auth storage).
Proof.
  intros Hin Hshow. unfold routes in Hin. simpl in Hin.
  repeat (destruct Hin as [Heq | Hin];
          [injection Heq as <- <-; route_case Hshow|]).
  contradiction.
Qed.

(** X25.  Where the guard sends an authenticated visitor who lacks the
    role [admin]: an element that requires [admin], as every admin route
    of the table has one, sends him to the dashboard that the stored
    [userRole] names.  For a stored role other
    than [admin] that is [/user/dashboard], whose route shows him the
    user dashboard.  For the stored role [admin] it is
    [/admin/dashboard], whose route sends him to [/admin/dashboard]
    again. *)
Theorem admin_route_without_role
  (auth : Auth) (storage : gmap string string) (pathname page : string) :
  authenticated auth storage ->
  hasRole auth "admin" = false ->
  let target := if strict_eq (storage !! "userRole") "admin"
                then "/admin/dashboard" else "/user/dashboard" in
  element_screen auth storage pathname (Protected (Some "admin") page) = GoesTo target /\
  exists el,
    route_element target = Some el /\
    element_screen auth storage target el =
      if strict_eq (storage !! "userRole") "admin"
      then GoesTo "/admin/dashboard" else Shows "UserDashboard".
Proof.
  intros Ha Hr target. subst target.
  apply authenticated_spec in Ha.
  assert (Hadmin : forall pathname' page',
             element_screen auth storage pathname' (Protected (Some "admin") page')
             = GoesTo (if strict_eq (storage !! "userRole") "admin"
                       then "/admin/dashboard" else "/user/dashboard")).
  { intros pathname' page'. simpl. unfold ProtectedRoute. rewrite Ha, Hr. simpl.
    destruct (strict_eq (storage !! "userRole") "admin"); reflexivity. }
  split; [apply Hadmin|].
  destruct (strict_eq (storage !! "userRole") "admin") eqn:Hrole.
  - exists (Protected (Some "admin") "Dashboard").
    split; [reflexivity|]. rewrite Hadmin. reflexivity.
  - exists (Protected None "UserDashboard").
    split; [reflexivity|]. simpl. unfold ProtectedRoute. rewrite Ha. reflexivity.
Qed.

End AppFacts.

(** ** More runs on concrete data *)

Section MoreScenarios.

Import Codec CodecFacts Sample.

Lemma logs_parse_empty_array : @JSON_parse _ Codec.logs "[]" = Some [].
Proof. reflexivity. Qed.

Lemma logs_parse_empty_text : @JSON_parse _ Codec.logs EmptyString = None.
Proof. reflexivity. Qed.

Lemma logs_parse_null : @JSON_parse _ Codec.logs "null" = None.
Proof. reflexivity. Qed.

Lemma logs_stringify_empty_array : @JSON_stringify _ Codec.logs [] = "[]".
Proof. reflexivity. Qed.

Lemma load_takes_stored_collection_witness :
  TaskList.tasks (state_of panelB_loaded) = TaskList.mockTasks T0 /\
  world_of panelB_loaded = world_of panelA_filtered.
Proof.
  assert (H1 : localStorage (world_of panelA_filtered) !! "tasks"
               = Some (JSON_stringify (TaskList.mockTasks T0))) by reflexivity.
  assert (H2 : JSON_stringify (TaskList.mockTasks T0) <> EmptyString)
    by (vm_compute; discriminate).
  pose proof (load_takes_stored_collection
                (world_of panelA_filtered) TaskList.initialState
                (JSON_stringify (TaskList.mockTasks T0)) (TaskList.mockTasks T0)
                H1 H2 (tasks_parse_stringify _)) as H.
  cbv zeta in H. destruct H as (Ht & _ & _ & _ & Hw). split; assumption.
Defined.

Lemma toggle_survives_reload_witness :
  TaskList.tasks
    (state_of (TaskList.load (world_of panelB_toggled) TaskList.initialState))
  = TaskList.tasks (state_of panelB_toggled).
Proof.
  exact (proj1 (toggle_survives_reload
                  tasks_parse_stringify tasks_parse_empty_text
                  "2" (world_of panelB_loaded) (state_of panelB_loaded)
                  TaskList.initialState)).
Defined.

Lemma toggle_reaches_other_panel_witness :
  exists e,
    head (dispatched (world_of panelB_toggled)) = Some e /\
    TaskList.tasks (state_of (TaskList.mounted_listener
                                e (world_of panelB_toggled) (state_of panelA_filtered)))
    = TaskList.tasks (state_of panelB_toggled).
Proof.
  destruct (toggle_reaches_other_panel
              tasks_parse_stringify tasks_parse_empty_text
              "2" (world_of panelB_loaded) (state_of panelB_loaded)
              (state_of panelA_filtered)) as (e & He & _ & _ & Ht & _).
  exists e. split; assumption.
Defined.

Lemma view_is_part_of_collection_witness :
  TaskList.reachable_in_schema (state_of panelA_synced) /\
  sublist (TaskList.filteredTasks (state_of panelA_synced))
          (TaskList.tasks (state_of panelA_synced)).
Proof.
  assert (Hs : TaskList.store_of_schema browser).
  { intros stored Hst. vm_compute in Hst. discriminate. }
  assert (He : TaskList.event_of_schema broadcast).
  { intros _ _. eexists. apply tasks_parse_stringify. }
  assert (H : TaskList.reachable_in_schema (state_of panelA_synced)).
  { exact (TaskList.in_schema_storage
             broadcast (world_of panelB_toggled) (state_of panelA_filtered) He
             (TaskList.in_schema_action
                (TaskList.FilterChange "status" "complete")
                (world_of panelA_loaded) (state_of panelA_loaded) I
                (TaskList.in_schema_load browser TaskList.initialState Hs
                                         TaskList.in_schema_initial))). }
  split; [exact H|].
  exact (proj1 (view_is_part_of_collection (state_of panelA_synced) H)).
Defined.

Lemma saveTask_updates_record_witness :
  trim (TaskList.form_title (TaskList.editForm panelA_new_title)) <> EmptyString /\
  TaskList.editingTask
    (state_of (fire (fun render => TaskList.saveTask render "1") browser panelA_new_title))
  = None.
Proof.
  assert (H : trim (TaskList.form_title (TaskList.editForm panelA_new_title))
              <> EmptyString) by (vm_compute; discriminate).
  split; [exact H|].
  exact (proj1 (proj2 (saveTask_updates_record
                         tasks_parse_stringify tasks_parse_empty_text
                         "1" browser panelA_new_title TaskList.initialState H))).
Defined.

Lemma saveTask_keeps_titles_witness :
  Forall titled (TaskList.tasks panelA_new_title) /\
  Forall titled
    (TaskList.tasks
       (state_of (fire (fun render => TaskList.saveTask render "1")
                       browser panelA_new_title))).
Proof.
  assert (H : Forall titled (TaskList.tasks panelA_new_title)).
  { repeat constructor; vm_compute; discriminate. }
  split; [exact H|].
  exact (saveTask_keeps_titles tasks_parse_stringify tasks_parse_empty_text
                               "1" browser panelA_new_title H).
Defined.

Lemma storage_event_empty_newValue_witness :
  TaskList.tasks (state_of (TaskList.mounted_listener
                              (mkEvent (Some "tasks") (Some EmptyString))
                              (world_of panelA_filtered) (state_of panelA_filtered)))
  = [].
Proof.
  exact (proj1 (proj2 (storage_event_empty_newValue
                         tasks_parse_empty_array
                         (mkEvent (Some "tasks") (Some EmptyString))
                         (world_of panelA_filtered) (state_of panelA_filtered)
                         eq_refl eq_refl))).
Defined.

Lemma toggle_twice_restores_witness :
  Forall two_valued (TaskList.tasks (state_of panelA_loaded)) /\
  Forall2 (restamped "1" T0)
          (TaskList.tasks (state_of panelA_loaded))
          (TaskList.tasks (state_of toggled_twice)).
Proof.
  assert (H : Forall two_valued (TaskList.tasks (state_of panelA_loaded))).
  { vm_compute. repeat (constructor; [auto|]). constructor. }
  split; [exact H|].
  exact (toggle_twice_restores tasks_parse_stringify tasks_parse_empty_text
                               "1" (world_of panelA_loaded) (world_of toggled_once)
                               (state_of panelA_loaded) H).
Defined.

Lemma load_keeps_stored_logs_witness :
  Permutation (RecentUsers.userLogs (state_of logs_deleted))
              (RecentUsers.userLogs
                 (state_of (RecentUsers.load (world_of logs_deleted)
                                             RecentUsers.initialState))).
Proof.
  assert (H0 : localStorage (world_of logs_deleted) !! "userLogs"
               = Some (JSON_stringify (RecentUsers.userLogs (state_of logs_deleted))))
    by reflexivity.
  assert (H1 : JSON_stringify (RecentUsers.userLogs (state_of logs_deleted))
               <> EmptyString) by (vm_compute; discriminate).
  assert (H2 : JSON_stringify (RecentUsers.userLogs (state_of logs_deleted)) <> "null")
    by (vm_compute; discriminate).
  assert (H3 : JSON_stringify (RecentUsers.userLogs (state_of logs_deleted)) <> "[]")
    by (vm_compute; discriminate).
  exact (proj1 (load_keeps_stored_logs (world_of logs_deleted) _ _ H0 H1 H2 H3
                                       (logs_parse_stringify _))).
Defined.

Lemma load_reseeds_on_sentinel_witness :
  RecentUsers.userLogs
    (state_of (RecentUsers.load browser_logs_null RecentUsers.initialState))
  = RecentUsers.mockLogs T0.
Proof.
  assert (H : localStorage browser_logs_null !! "userLogs" = None \/
              localStorage browser_logs_null !! "userLogs" = Some EmptyString \/
              localStorage browser_logs_null !! "userLogs" = Some "null" \/
              localStorage browser_logs_null !! "userLogs" = Some "[]").
  { right. right. left. reflexivity. }
  exact (proj1 (load_reseeds_on_sentinel browser_logs_null H)).
Defined.

Lemma load_swallows_unparseable_logs_witness :
  RecentUsers.userLogs
    (state_of (RecentUsers.load browser_logs_garbage RecentUsers.initialState)) = [] /\
  localStorage (world_of (RecentUsers.load browser_logs_garbage RecentUsers.initialState))
  = localStorage browser_logs_garbage.
Proof.
  assert (H0 : localStorage browser_logs_garbage !! "userLogs" = Some "<html>")
    by reflexivity.
  assert (H1 : "<html>" <> EmptyString) by discriminate.
  assert (H2 : "<html>" <> "null") by discriminate.
  assert (H3 : "<html>" <> "[]") by discriminate.
  assert (H4 : JSON_parse "<html>" = (None : option (list UserLog))) by reflexivity.
  pose proof (load_swallows_unparseable_logs browser_logs_garbage "<html>"
                H0 H1 H2 H3 H4) as H.
  cbv zeta in H. destruct H as (_ & Hl & _ & Hs & _). split; assumption.
Defined.

Lemma logs_stay_newest_first_witness :
  RecentUsers.reachable (state_of logs_deleted) /\
  newest_first (RecentUsers.userLogs (state_of logs_deleted)).
Proof.
  assert (H : RecentUsers.reachable (state_of logs_deleted)).
  { exact (RecentUsers.reachable_event
             (RecentUsers.Delete "2") (world_of logs_pending) (state_of logs_pending)
             (RecentUsers.reachable_event
                (RecentUsers.Delete "2") (world_of logs_loaded) (state_of logs_loaded)
                (RecentUsers.reachable_load browser))). }
  split; [exact H|].
  exact (logs_stay_newest_first (state_of logs_deleted) H).
Defined.

Lemma deletion_survives_reload_witness :
  RecentUsers.userLogs
    (state_of (RecentUsers.load (world_of logs_deleted) RecentUsers.initialState))
  = RecentUsers.userLogs (state_of logs_deleted).
Proof.
  assert (H1 : newest_first (RecentUsers.userLogs (state_of logs_pending))).
  { assert (E : RecentUsers.userLogs (state_of logs_pending) = RecentUsers.mockLogs T0)
      by (vm_compute; reflexivity).
    rewrite E. apply mockLogs_newest_first. }
  assert (H2 : RecentUsers.deleteConfirm (state_of logs_pending) = Some "2")
    by reflexivity.
  assert (H3 : List.filter (fun log => negb (String.eqb (log_id log) "2"))
                           (RecentUsers.userLogs (state_of logs_pending)) <> [])
    by (vm_compute; discriminate).
  exact (proj1 (proj2 (deletion_survives_reload
                         logs_parse_stringify logs_parse_empty_array
                         logs_parse_empty_text logs_parse_null
                         "2" (world_of logs_pending) (state_of logs_pending)
                         H1 H2 H3))).
Defined.

Lemma resetLogs_survives_reload_witness :
  RecentUsers.userLogs
    (state_of (RecentUsers.load
                 (world_of (fire RecentUsers.resetLogs browser RecentUsers.initialState))
                 RecentUsers.initialState))
  = RecentUsers.mockLogs T0.
Proof.
  exact (proj1 (proj2 (proj2 (resetLogs_survives_reload
                                logs_parse_stringify logs_parse_empty_array
                                logs_parse_empty_text logs_parse_null
                                browser RecentUsers.initialState)))).
Defined.

Lemma deleting_every_log_reseeds_witness :
  RecentUsers.userLogs
    (state_of (fire (fun render => RecentUsers.handleDelete render "7")
                    browser logs_last_pending)) = [] /\
  List.length
    (RecentUsers.userLogs
       (state_of (RecentUsers.load
                    (world_of (fire (fun render => RecentUsers.handleDelete render "7")
                                    browser logs_last_pending))
                    RecentUsers.initialState))) = 3%nat.
Proof.
  assert (H1 : RecentUsers.deleteConfirm logs_last_pending = Some "7") by reflexivity.
  assert (H2 : Forall (fun log => log_id log = "7")
                      (RecentUsers.userLogs logs_last_pending)).
  { repeat constructor. }
  pose proof (deleting_every_log_reseeds logs_stringify_empty_array
                "7" browser logs_last_pending H1 H2) as H.
  cbv zeta in H. destruct H as (He & _ & _ & Hn). split; assumption.
Defined.

Lemma routes_access_control_witness :
  In ("/admin/settings", App.Protected (Some "admin") "Settings") App.routes /\
  App.element_screen administrator ∅ "/admin/settings"
                     (App.Protected (Some "admin") "Settings") = App.Shows "Settings" /\
  App.hasRole administrator "admin" = true.
Proof.
  assert (H1 : In ("/admin/settings", App.Protected (Some "admin") "Settings")
                  App.routes).
  { unfold App.routes. simpl. do 10 right. left. reflexivity. }
  assert (H2 : App.element_screen administrator ∅ "/admin/settings"
                                  (App.Protected (Some "admin") "Settings")
               = App.Shows "Settings") by reflexivity.
  split; [exact H1|]. split; [exact H2|].
  exact (proj2 (proj1 (routes_access_control
                         administrator ∅ "/admin/settings" "/admin/settings"
                         "Settings" (App.Protected (Some "admin") "Settings") H1 H2)
                      eq_refl)).
Defined.

Lemma admin_route_without_role_witness :
  App.authenticated visitor visitor_storage /\
  App.hasRole visitor "admin" = false /\
  App.element_screen visitor visitor_storage "/admin/users"
                     (App.Protected (Some "admin") "Users")
  = App.GoesTo "/user/dashboard".
Proof.
  assert (H1 : App.authenticated visitor visitor_storage).
  { right. exists "eyJhbGciOi". split; [reflexivity | discriminate]. }
  assert (H2 : App.hasRole visitor "admin" = false) by reflexivity.
  split; [exact H1|]. split; [exact H2|].
  exact (proj1 (admin_route_without_role visitor visitor_storage "/admin/users" "Users"
                                         H1 H2)).
Defined.

End MoreScenarios.
